(** * The contact form of react_hook_form: schema, register and submit lifecycle

    A shallow embedding of the two form components of the repository:

    - [Form], the component with the conditional Website field, whose test
      suite accompanies it: its schema, the [setValueAs] converters given
      to [register], the [companyValue &&] guard around the Website input,
      the [disabled={isSubmitting}] button and the [onSubmit] handler;
    - [ProfessionalContactDemo] (src/component/form.tsx): its schema,
      its [onSubmit] handler with [setIsSuccess] and [reset], the success
      panel and its "Restart Demo" button.

    Of what [Form] renders, the inputs with their border class and aria
    attributes, the error paragraphs and the submit button are embedded
    ([render], [button]); layout and styling are not.  An [Input] event
    carries the value an element reports to its change handler; what the
    element of each [type] reports for a content set by the user is
    [Html.reported].  [handleSubmit] is also given for a handler passed
    from outside ([stepWith]), of which the form's [onSubmit] is one.

    Both are React components over react-hook-form and zod.  The two
    libraries are embedded as far as the components call them: zod's
    object parse (every key is parsed, all issues are collected), and
    react-hook-form's store of field values (a value is kept when its
    input leaves the screen, as [useForm] is called without
    [shouldUnregister]) with its [handleSubmit].  zod's two string formats
    (email, url) are an interface, [Zod.Formats]; the statements hold for
    every implementation of it, and the few facts used of the formats on
    particular strings are stated as hypotheses. *)

From Stdlib Require Import List NArith String Ascii Bool Arith Lia.
Import ListNotations.
Local Open Scope list_scope.

(** ** JavaScript strings and values *)

Module JS.

(** A string is its sequence of UTF-16 code units; [length] is [.length]. *)
Definition jsstring := list N.

Definition lit (s : string) : jsstring :=
  map N_of_ascii (list_ascii_of_string s).

(** WhiteSpace and LineTerminator code units, the ones
    [String.prototype.trim] removes. *)
Definition isWhiteSpace (c : N) : bool :=
  ((9 <=? c) && (c <=? 13) || (c =? 32) || (c =? 160) || (c =? 5760)
   || (8192 <=? c) && (c <=? 8202) || (c =? 8232) || (c =? 8233)
   || (c =? 8239) || (c =? 8287) || (c =? 12288) || (c =? 65279))%N.

Fixpoint trimStart (s : jsstring) : jsstring :=
  match s with
  | c :: s' => if isWhiteSpace c then trimStart s' else s
  | [] => []
  end.

Definition trimEnd (s : jsstring) : jsstring := rev (trimStart (rev s)).

Definition trim (s : jsstring) : jsstring := trimEnd (trimStart s).

Definition isEmpty (s : jsstring) : bool :=
  match s with [] => true | _ :: _ => false end.

(** The values a form field holds: [undefined] or a string. *)
Inductive value : Type :=
| undefined
| Str (s : jsstring).

(** ToBoolean, as used by [companyValue && ...]. *)
Definition truthy (v : value) : bool :=
  match v with
  | undefined => false
  | Str s => negb (isEmpty s)
  end.

(** A string made of white space only (the empty string included). *)
Definition blank (s : jsstring) : bool := forallb isWhiteSpace s.

End JS.
Import JS.

(** ** Field names *)

Inductive FieldName : Type :=
| FirstName | LastName | Company | Website | Email | Message.

Definition FieldName_eqb (a b : FieldName) : bool :=
  match a, b with
  | FirstName, FirstName | LastName, LastName | Company, Company
  | Website, Website | Email, Email | Message, Message => true
  | _, _ => false
  end.

(** Field errors as the resolver hands them to [formState.errors]: one
    entry per failing path, in the order of the schema's keys. *)
Definition FieldErrors := list (FieldName * string).

Fixpoint lookup (f : FieldName) (e : FieldErrors) : option string :=
  match e with
  | [] => None
  | (g, m) :: e' => if FieldName_eqb f g then Some m else lookup f e'
  end.

Definition count (f : FieldName) (e : FieldErrors) : nat :=
  List.length (filter (fun p => FieldName_eqb f (fst p)) e).

(** ** zod, as far as the schemas use it *)

Module Zod.

(** The two string formats.  [email_format] is the test of zod's email
    pattern; [url_format s] is [None] when [new URL] rejects the trimmed
    string and otherwise the string the check leaves as output. *)
Class Formats : Type := {
  email_format : jsstring -> bool;
  url_format : jsstring -> option jsstring
}.

Inductive Parsed (A : Type) : Type :=
| Ok (out : A)
| Issue (msg : string).
Arguments Ok {A} out.
Arguments Issue {A} msg.

Definition message {A} (p : Parsed A) : option string :=
  match p with Ok _ => None | Issue m => Some m end.

(** [z.string()] on a string. *)
Definition string_ (s : jsstring) : Parsed jsstring := Ok s.

(** [z.string().min(n, msg)]. *)
Definition string_min (n : nat) (msg : string) (s : jsstring)
  : Parsed jsstring :=
  if List.length s <? n then Issue msg else Ok s.

Section WithFormats.
Context {F : Formats}.

(** [z.email({ message })] and [z.string().email(message)]: the same
    format check behind both spellings. *)
Definition email (msg : string) (s : jsstring) : Parsed jsstring :=
  if email_format s then Ok s else Issue msg.

(** [z.url()], with zod's own message. *)
Definition url (s : jsstring) : Parsed jsstring :=
  match url_format s with
  | Some out => Ok out
  | None => Issue "Invalid URL"
  end.
End WithFormats.

(** [.optional()]: [undefined] passes unchanged. *)
Definition optional (inner : jsstring -> Parsed jsstring) (v : value)
  : Parsed value :=
  match v with
  | undefined => Ok undefined
  | Str s =>
      match inner s with
      | Ok out => Ok (Str out)
      | Issue m => Issue m
      end
  end.

(** The issue of one key of an object schema, under its path. *)
Definition at_path {A} (f : FieldName) (p : Parsed A) : FieldErrors :=
  match p with
  | Ok _ => []
  | Issue m => [(f, m)]
  end.

End Zod.

(** ** Input elements

    What an input element reports as its [value] once its content has
    been set to a string: the value sanitisation of [type="text"],
    [type="url"] and [type="email"], and the newline normalisation of a
    [textarea]. *)

Module Html.

Inductive InputType : Type :=
| TypeText | TypeUrl | TypeEmail | TextArea.

Definition isLineBreak (c : N) : bool := ((c =? 10) || (c =? 13))%N.

(** ASCII whitespace: tab, line feed, form feed, carriage return, space. *)
Definition isAsciiWhitespace (c : N) : bool :=
  ((c =? 9) || (c =? 10) || (c =? 12) || (c =? 13) || (c =? 32))%N.

(** Strip newlines. *)
Definition stripNewlines (s : jsstring) : jsstring :=
  filter (fun c => negb (isLineBreak c)) s.

Fixpoint dropAsciiWhitespace (s : jsstring) : jsstring :=
  match s with
  | c :: s' => if isAsciiWhitespace c then dropAsciiWhitespace s' else s
  | [] => []
  end.

(** Strip leading and trailing ASCII whitespace. *)
Definition stripAsciiWhitespace (s : jsstring) : jsstring :=
  rev (dropAsciiWhitespace (rev (dropAsciiWhitespace s))).

(** A carriage return, with or without a line feed after it, becomes one
    line feed. *)
Fixpoint normalizeNewlines (s : jsstring) : jsstring :=
  match s with
  | [] => []
  | c :: s' =>
      if (c =? 13)%N then
        match s' with
        | c' :: s'' =>
            if (c' =? 10)%N then 10%N :: normalizeNewlines s''
            else 10%N :: normalizeNewlines s'
        | [] => [10%N]
        end
      else c :: normalizeNewlines s'
  end.

Definition reported (t : InputType) (s : jsstring) : jsstring :=
  match t with
  | TypeText => stripNewlines s
  | TypeUrl | TypeEmail => stripAsciiWhitespace (stripNewlines s)
  | TextArea => normalizeNewlines s
  end.

End Html.

(** ** The Form component *)

Module Form.

(** [type Inputs = z.infer<typeof schema>], restricted to what the
    registered inputs can hold: the four required inputs always carry
    their DOM string, the two inputs registered with [setValueAs] carry
    [undefined] or a string. *)
Record Inputs : Type := {
  firstName : jsstring;
  lastName : jsstring;
  company : value;
  website : value;
  email : jsstring;
  message : jsstring
}.

(** What the resolver returns: the parsed values, or the field errors. *)
Inductive ValidationResult : Type :=
| Valid (data : Inputs)
| Invalid (errors : FieldErrors).

(** [setValueAs: (v) => (typeof v === 'string' && v.trim() === '' ?
    undefined : v)], given to [register] for company and for website.
    The argument is the string of the input element. *)
Definition setValueAs (v : jsstring) : value :=
  if isEmpty (trim v) then undefined else Str v.

Section Schema.
Context {F : Zod.Formats}.

Definition firstName_rule : jsstring -> Zod.Parsed jsstring :=
  Zod.string_min 2 "First name must be at least 2 characters.".
Definition lastName_rule : jsstring -> Zod.Parsed jsstring :=
  Zod.string_min 2 "Last name must be at least 2 characters.".
Definition company_rule : value -> Zod.Parsed value :=
  Zod.optional Zod.string_.
Definition website_rule : value -> Zod.Parsed value :=
  Zod.optional Zod.url.
Definition email_rule : jsstring -> Zod.Parsed jsstring :=
  Zod.email "Please enter a valid email address.".
Definition message_rule : jsstring -> Zod.Parsed jsstring :=
  Zod.string_min 10 "Message must be at least 10 characters.".

(** The issue, if any, that the rule of one key raises on a record. *)
Definition fieldIssue (f : FieldName) (v : Inputs) : option string :=
  match f with
  | FirstName => Zod.message (firstName_rule (firstName v))
  | LastName => Zod.message (lastName_rule (lastName v))
  | Company => Zod.message (company_rule (company v))
  | Website => Zod.message (website_rule (website v))
  | Email => Zod.message (email_rule (email v))
  | Message => Zod.message (message_rule (message v))
  end.

(** [zodResolver(schema)]: every key is parsed; the record is valid
    when no key raised an issue, otherwise all issues are returned. *)
Definition schema (v : Inputs) : ValidationResult :=
  let p1 := firstName_rule (firstName v) in
  let p2 := lastName_rule (lastName v) in
  let p3 := company_rule (company v) in
  let p4 := website_rule (website v) in
  let p5 := email_rule (email v) in
  let p6 := message_rule (message v) in
  match p1, p2, p3, p4, p5, p6 with
  | Zod.Ok a, Zod.Ok b, Zod.Ok c, Zod.Ok d, Zod.Ok e, Zod.Ok m =>
      Valid {| firstName := a; lastName := b; company := c;
               website := d; email := e; message := m |}
  | _, _, _, _, _, _ =>
      Invalid (Zod.at_path FirstName p1 ++ Zod.at_path LastName p2
               ++ Zod.at_path Company p3 ++ Zod.at_path Website p4
               ++ Zod.at_path Email p5 ++ Zod.at_path Message p6)
  end.
End Schema.

Definition errorsOf (r : ValidationResult) : FieldErrors :=
  match r with
  | Valid _ => []
  | Invalid e => e
  end.

Definition isValid (r : ValidationResult) : bool :=
  match r with
  | Valid _ => true
  | Invalid _ => false
  end.

(** The keys [JSON.stringify(data)] prints: those whose value is not
    [undefined]. *)
Definition jsonKeys (d : Inputs) : list FieldName :=
  [FirstName; LastName]
  ++ (match company d with undefined => [] | Str _ => [Company] end)
  ++ (match website d with undefined => [] | Str _ => [Website] end)
  ++ [Email; Message].

(** *** The rendered form as a transition system *)

(** How the promise returned by a submit handler settles. *)
Inductive Settlement : Type :=
| Fulfilled
| Rejected (reason : string).

Record FormState : Type := {
  values : Inputs;              (* the field values the form holds *)
  errors : FieldErrors;         (* formState.errors *)
  isSubmitting : bool;          (* formState.isSubmitting *)
  isSubmitSuccessful : bool;    (* formState.isSubmitSuccessful *)
  rejection : option string;    (* reason rethrown by handleSubmit *)
  timers : list Inputs;         (* pending setTimeout callbacks of onSubmit,
                                   each with the data it closed over *)
  alerts : list Inputs;         (* the calls of alert, oldest first *)
  onSubmitCalls : nat           (* how often onSubmit has been invoked *)
}.

Inductive Event : Type :=
| Input (f : FieldName) (s : jsstring)   (* the input of f reports value s *)
| Submit                                 (* the user presses the button *)
| Timeout.                               (* the oldest timer fires *)

(** The lifecycle as the specification names it. *)
Inductive SubmissionState : Type :=
| Idle
| Submitting
| Succeeded
| Failed (reason : string).

(** [const companyValue = watch("company")]. *)
Definition companyValue (st : FormState) : value := company (values st).

(** [{companyValue && (<> ... website input ... </>)}]. *)
Definition websiteRendered (st : FormState) : bool :=
  truthy (companyValue st).

(** The inputs on screen, in document order. *)
Definition activeFields (st : FormState) : list FieldName :=
  [FirstName; LastName; Company]
  ++ (if websiteRendered st then [Website] else [])
  ++ [Email; Message].

(** The change handler [register] installs: the input's string goes
    through [setValueAs] where one was given. *)
Definition onChange (f : FieldName) (s : jsstring) (v : Inputs) : Inputs :=
  match f with
  | FirstName =>
      {| firstName := s; lastName := lastName v; company := company v;
         website := website v; email := email v; message := message v |}
  | LastName =>
      {| firstName := firstName v; lastName := s; company := company v;
         website := website v; email := email v; message := message v |}
  | Company =>
      {| firstName := firstName v; lastName := lastName v;
         company := setValueAs s;
         website := website v; email := email v; message := message v |}
  | Website =>
      {| firstName := firstName v; lastName := lastName v;
         company := company v;
         website := setValueAs s; email := email v; message := message v |}
  | Email =>
      {| firstName := firstName v; lastName := lastName v;
         company := company v;
         website := website v; email := s; message := message v |}
  | Message =>
      {| firstName := firstName v; lastName := lastName v;
         company := company v;
         website := website v; email := email v; message := s |}
  end.

(** An input can be edited when it is on screen.  An edit rewrites the
    held value of its own field.  The re-validation of the edited field
    that follows a first submit touches [errors] only and is not part of
    this model; nothing below reads [errors] after an edit.

    [Input f s] is the change event the handler of [register] receives:
    [s] is the [value] the element reports, which the handler stores as
    it is.  What an element reports for a content set by the user
    depends on its [type]; that is [elementValue], and [typeInto] is the
    edit as the user makes it. *)
Definition editable (st : FormState) (f : FieldName) : bool :=
  match f with
  | Website => websiteRendered st
  | _ => true
  end.

Definition input (f : FieldName) (s : jsstring) (st : FormState)
  : FormState :=
  if editable st f then
    {| values := onChange f s (values st); errors := errors st;
       isSubmitting := isSubmitting st;
       isSubmitSuccessful := isSubmitSuccessful st;
       rejection := rejection st; timers := timers st;
       alerts := alerts st; onSubmitCalls := onSubmitCalls st |}
  else st.

(** [onSubmit]: the executor takes [resolve] only and starts one timer;
    the timer's callback alerts the data and then resolves. *)
Definition onSubmit (data : Inputs) (st : FormState) : FormState :=
  {| values := values st; errors := errors st;
     isSubmitting := isSubmitting st;
     isSubmitSuccessful := isSubmitSuccessful st;
     rejection := rejection st;
     timers := timers st ++ [data];
     alerts := alerts st; onSubmitCalls := S (onSubmitCalls st) |}.

Definition onSubmit_timeout (data : Inputs) : list Inputs * Settlement :=
  ([data], Fulfilled).

Section Lifecycle.
Context {F : Zod.Formats}.

(** [handleSubmit(onSubmit)] up to the call of the handler: the
    resolver runs on the held values; errors are published; the handler
    is called on the parsed data when there are none. *)
Definition handleSubmit (st : FormState) : FormState :=
  match schema (values st) with
  | Invalid e =>
      {| values := values st; errors := e;
         isSubmitting := false; isSubmitSuccessful := false;
         rejection := rejection st; timers := timers st;
         alerts := alerts st; onSubmitCalls := onSubmitCalls st |}
  | Valid data =>
      onSubmit data
        {| values := values st; errors := [];
           isSubmitting := true;
           isSubmitSuccessful := isSubmitSuccessful st;
           rejection := rejection st; timers := timers st;
           alerts := alerts st; onSubmitCalls := onSubmitCalls st |}
  end.

(** The rest of [handleSubmit], once the handler's promise settled. *)
Definition settled (o : Settlement) (st : FormState) : FormState :=
  match o with
  | Fulfilled =>
      {| values := values st; errors := errors st;
         isSubmitting := false; isSubmitSuccessful := true;
         rejection := rejection st; timers := timers st;
         alerts := alerts st; onSubmitCalls := onSubmitCalls st |}
  | Rejected r =>
      {| values := values st; errors := errors st;
         isSubmitting := false; isSubmitSuccessful := false;
         rejection := Some r; timers := timers st;
         alerts := alerts st; onSubmitCalls := onSubmitCalls st |}
  end.

Definition timeout (st : FormState) : FormState :=
  match timers st with
  | [] => st
  | data :: rest =>
      let (shown, o) := onSubmit_timeout data in
      settled o
        {| values := values st; errors := errors st;
           isSubmitting := isSubmitting st;
           isSubmitSuccessful := isSubmitSuccessful st;
           rejection := rejection st; timers := rest;
           alerts := alerts st ++ shown;
           onSubmitCalls := onSubmitCalls st |}
  end.

(** [<button disabled={isSubmitting} type="submit">]: a disabled
    button dispatches nothing. *)
Definition step (st : FormState) (ev : Event) : FormState :=
  match ev with
  | Input f s => input f s st
  | Submit => if isSubmitting st then st else handleSubmit st
  | Timeout => timeout st
  end.

Definition run (st : FormState) (evs : list Event) : FormState :=
  fold_left step evs st.
End Lifecycle.

(** The form after its first render: every registered input has
    reported its (empty) DOM value; website is not registered. *)
Definition mounted : FormState :=
  {| values := {| firstName := []; lastName := [];
                  company := setValueAs []; website := undefined;
                  email := []; message := [] |};
     errors := []; isSubmitting := false; isSubmitSuccessful := false;
     rejection := None; timers := []; alerts := []; onSubmitCalls := 0 |}.

Definition status (st : FormState) : SubmissionState :=
  if isSubmitting st then Submitting
  else match rejection st with
       | Some r => Failed r
       | None => if isSubmitSuccessful st then Succeeded else Idle
       end.

(** The string the Company input shows after a run of events. *)
Definition companyTyped (evs : list Event) : jsstring :=
  fold_left (fun c ev => match ev with Input Company s => s | _ => c end)
            evs [].

(** *** What the component renders *)

(** The [id] of an input and of its error paragraph. *)
Definition fieldId (f : FieldName) : string :=
  match f with
  | FirstName => "firstName"
  | LastName => "lastName"
  | Company => "company"
  | Website => "website"
  | Email => "email"
  | Message => "message"
  end.

Definition errorId (f : FieldName) : string := fieldId f ++ "-error".

(** An input element: its [id], the border class chosen by
    [errors.f ? "border-red-500" : "border-gray-100"], [aria-invalid] and
    [aria-describedby]. *)
Record InputView : Type := {
  inputId : string;
  borderClass : string;
  ariaInvalid : bool;
  ariaDescribedby : option string
}.

(** An error paragraph [<p id=... role="alert">]. *)
Record AlertView : Type := {
  alertId : string;
  alertText : string
}.

Inductive Element : Type :=
| InputEl (i : InputView)
| AlertEl (a : AlertView).

(** One input with the paragraph [{errors.f && <p ...>}] after it. *)
Definition renderField (st : FormState) (f : FieldName) : list Element :=
  match lookup f (errors st) with
  | Some m =>
      [InputEl {| inputId := fieldId f; borderClass := "border-red-500";
                  ariaInvalid := true;
                  ariaDescribedby := Some (errorId f) |};
       AlertEl {| alertId := errorId f; alertText := m |}]
  | None =>
      [InputEl {| inputId := fieldId f; borderClass := "border-gray-100";
                  ariaInvalid := false; ariaDescribedby := None |}]
  end.

(** The inputs and error paragraphs of the form, in document order; the
    Website input and its paragraph sit inside [companyValue && ...]. *)
Definition render (st : FormState) : list Element :=
  renderField st FirstName ++ renderField st LastName
  ++ renderField st Company
  ++ (if websiteRendered st then renderField st Website else [])
  ++ renderField st Email ++ renderField st Message.

(** The texts of the error paragraphs on screen. *)
Definition shownErrors (st : FormState) : list string :=
  flat_map (fun el => match el with
                      | AlertEl a => [alertText a]
                      | InputEl _ => []
                      end) (render st).

(** The submit button: [disabled], [aria-disabled] and its label. *)
Record ButtonView : Type := {
  disabled : bool;
  ariaDisabled : bool;
  label : string
}.

Definition button (st : FormState) : ButtonView :=
  {| disabled := isSubmitting st; ariaDisabled := isSubmitting st;
     label := if isSubmitting st then "Sending..." else "Submit" |}.

(** [aria-busy] of the form element. *)
Definition ariaBusy (st : FormState) : bool := isSubmitting st.

(** The value the form holds under a key. *)
Definition held (f : FieldName) (v : Inputs) : value :=
  match f with
  | FirstName => Str (firstName v)
  | LastName => Str (lastName v)
  | Company => company v
  | Website => website v
  | Email => Str (email v)
  | Message => Str (message v)
  end.

(** How often the submit button is pressed, and how often a timer is due,
    in a run of events. *)
Definition presses (evs : list Event) : nat :=
  List.length (filter (fun ev => match ev with Submit => true | _ => false end)
                      evs).

Definition timeouts (evs : list Event) : nat :=
  List.length (filter (fun ev => match ev with Timeout => true | _ => false end)
                      evs).

(** Events that edit inputs only. *)
Definition isInput (ev : Event) : bool :=
  match ev with Input _ _ => true | _ => false end.


(** *** The elements behind the inputs *)

(** [type="text"] for the two names and the company, [type="url"] for
    the website, [type="email"] for the email, a [textarea] for the
    message. *)
Definition inputType (f : FieldName) : Html.InputType :=
  match f with
  | FirstName | LastName | Company => Html.TypeText
  | Website => Html.TypeUrl
  | Email => Html.TypeEmail
  | Message => Html.TextArea
  end.

(** The value the element of [f] reports once its content is set to
    [s]. *)
Definition elementValue (f : FieldName) (s : jsstring) : jsstring :=
  Html.reported (inputType f) s.

(** The user sets the content of the input of [f] to [s]: the element
    reports its value, the change handler stores it. *)
Definition typeInto (f : FieldName) (s : jsstring) (st : FormState)
  : FormState :=
  input f (elementValue f s) st.

(** *** [handleSubmit] with a handler given from outside *)

Section InjectedAction.
Context {F : Zod.Formats}.

(** The handler passed to [handleSubmit]: for the data it was called
    with, what it has alerted when its promise settles, and how the
    promise settles.  The form's own handler is [onSubmit_timeout]. *)
Variable action : Inputs -> list Inputs * Settlement.

(** A call of [handleSubmit] returns a promise of its own: what an
    earlier call rethrew is not carried over. *)
Definition forget (st : FormState) : FormState :=
  {| values := values st; errors := errors st;
     isSubmitting := isSubmitting st;
     isSubmitSuccessful := isSubmitSuccessful st;
     rejection := None; timers := timers st;
     alerts := alerts st; onSubmitCalls := onSubmitCalls st |}.

(** The oldest pending call of the handler settles. *)
Definition settleWith (st : FormState) : FormState :=
  match timers st with
  | [] => st
  | data :: rest =>
      let (shown, o) := action data in
      settled o
        {| values := values st; errors := errors st;
           isSubmitting := isSubmitting st;
           isSubmitSuccessful := isSubmitSuccessful st;
           rejection := rejection st; timers := rest;
           alerts := alerts st ++ shown;
           onSubmitCalls := onSubmitCalls st |}
  end.

Definition stepWith (st : FormState) (ev : Event) : FormState :=
  match ev with
  | Input f s => input f s st
  | Submit => if isSubmitting st then st else handleSubmit (forget st)
  | Timeout => settleWith st
  end.

Definition runWith (st : FormState) (evs : list Event) : FormState :=
  fold_left stepWith evs st.

End InjectedAction.

End Form.


(** ** The ProfessionalContactDemo component (src/component/form.tsx) *)

Module ProfessionalContactDemo.

Record Inputs : Type := {
  firstName : jsstring;
  lastName : jsstring;
  email : jsstring;
  message : jsstring
}.

Inductive ValidationResult : Type :=
| Valid (data : Inputs)
| Invalid (errors : FieldErrors).

Section Schema.
Context {F : Zod.Formats}.

Definition firstName_rule : jsstring -> Zod.Parsed jsstring :=
  Zod.string_min 2 "Name required.".
Definition lastName_rule : jsstring -> Zod.Parsed jsstring :=
  Zod.string_min 2 "Name required.".
Definition email_rule : jsstring -> Zod.Parsed jsstring :=
  Zod.email "Invalid email address.".
Definition message_rule : jsstring -> Zod.Parsed jsstring :=
  Zod.string_min 10 "Please provide more details.".

Definition schema (v : Inputs) : ValidationResult :=
  let p1 := firstName_rule (firstName v) in
  let p2 := lastName_rule (lastName v) in
  let p3 := email_rule (email v) in
  let p4 := message_rule (message v) in
  match p1, p2, p3, p4 with
  | Zod.Ok a, Zod.Ok b, Zod.Ok e, Zod.Ok m =>
      Valid {| firstName := a; lastName := b; email := e; message := m |}
  | _, _, _, _ =>
      Invalid (Zod.at_path FirstName p1 ++ Zod.at_path LastName p2
               ++ Zod.at_path Email p3 ++ Zod.at_path Message p4)
  end.
End Schema.

Definition isValid (r : ValidationResult) : bool :=
  match r with
  | Valid _ => true
  | Invalid _ => false
  end.

(** The same four values as a record of the Form component: the two
    optional keys are not supplied. *)
Definition asFormInputs (v : Inputs) : Form.Inputs :=
  {| Form.firstName := firstName v; Form.lastName := lastName v;
     Form.company := undefined; Form.website := undefined;
     Form.email := email v; Form.message := message v |}.

(** *** The rendered demo as a transition system *)

Record DemoState : Type := {
  values : Inputs;             (* the field values the form holds *)
  errors : FieldErrors;        (* formState.errors *)
  isSubmitting : bool;         (* formState.isSubmitting *)
  isSuccess : bool;            (* the component's useState flag *)
  timers : list Inputs;        (* pending timers of onSubmit, each with
                                  the data its call was given *)
  tabled : list Inputs         (* the calls of console.table *)
}.

Inductive Event : Type :=
| Input (f : FieldName) (s : jsstring)   (* the input of f reports value s *)
| Submit                                 (* the submit button is pressed *)
| Timeout                                (* the oldest timer fires *)
| Restart.                               (* "Restart Demo" is pressed *)

(** Every input empty: what the inputs report when the form is first
    rendered, and again when it is rendered anew after [reset()].  While
    the success panel is up the form is not rendered and, after
    [reset()], holds no values at all; [values] then stands for what the
    inputs will report on the next render, not for what is held. *)
Definition cleared : Inputs :=
  {| firstName := []; lastName := []; email := []; message := [] |}.

(** The four inputs the form registers, none with a converter. *)
Definition registered (f : FieldName) : bool :=
  match f with
  | FirstName | LastName | Email | Message => true
  | Company | Website => false
  end.

Definition onChange (f : FieldName) (s : jsstring) (v : Inputs) : Inputs :=
  match f with
  | FirstName =>
      {| firstName := s; lastName := lastName v; email := email v;
         message := message v |}
  | LastName =>
      {| firstName := firstName v; lastName := s; email := email v;
         message := message v |}
  | Email =>
      {| firstName := firstName v; lastName := lastName v; email := s;
         message := message v |}
  | Message =>
      {| firstName := firstName v; lastName := lastName v; email := email v;
         message := s |}
  | Company | Website => v
  end.

(** [{!isSuccess ? (the form) : (the success panel)}]. *)
Definition formShown (st : DemoState) : bool := negb (isSuccess st).

Definition input (f : FieldName) (s : jsstring) (st : DemoState)
  : DemoState :=
  if formShown st && registered f then
    {| values := onChange f s (values st); errors := errors st;
       isSubmitting := isSubmitting st; isSuccess := isSuccess st;
       timers := timers st; tabled := tabled st |}
  else st.

(** What [onSubmit] does once its timer has fired: [console.table(data)],
    [setIsSuccess(true)], [reset()]; then [handleSubmit] ends the
    submission.  [reset()] empties the form and drops its errors; with
    the form off screen nothing reads [values] until "Restart Demo"
    renders the inputs anew, which then report [cleared]. *)
Definition afterTimer (data : Inputs) (st : DemoState) : DemoState :=
  {| values := cleared; errors := [];
     isSubmitting := false; isSuccess := true;
     timers := timers st; tabled := tabled st ++ [data] |}.

Section Lifecycle.
Context {F : Zod.Formats}.

Definition handleSubmit (st : DemoState) : DemoState :=
  match schema (values st) with
  | Invalid e =>
      {| values := values st; errors := e;
         isSubmitting := false; isSuccess := isSuccess st;
         timers := timers st; tabled := tabled st |}
  | Valid data =>
      {| values := values st; errors := [];
         isSubmitting := true; isSuccess := isSuccess st;
         timers := timers st ++ [data]; tabled := tabled st |}
  end.

Definition timeout (st : DemoState) : DemoState :=
  match timers st with
  | [] => st
  | data :: rest =>
      afterTimer data
        {| values := values st; errors := errors st;
           isSubmitting := isSubmitting st; isSuccess := isSuccess st;
           timers := rest; tabled := tabled st |}
  end.

(** [onClick={() => setIsSuccess(false)}] of the success panel. *)
Definition restart (st : DemoState) : DemoState :=
  if isSuccess st then
    {| values := values st; errors := errors st;
       isSubmitting := isSubmitting st; isSuccess := false;
       timers := timers st; tabled := tabled st |}
  else st.

(** The submit button is part of the form and [disabled={isSubmitting}]. *)
Definition step (st : DemoState) (ev : Event) : DemoState :=
  match ev with
  | Input f s => input f s st
  | Submit =>
      if formShown st && negb (isSubmitting st) then handleSubmit st else st
  | Timeout => timeout st
  | Restart => restart st
  end.

Definition run (st : DemoState) (evs : list Event) : DemoState :=
  fold_left step evs st.
End Lifecycle.

Definition mounted : DemoState :=
  {| values := cleared; errors := []; isSubmitting := false;
     isSuccess := false; timers := []; tabled := [] |}.

(** The label of the submit button. *)
Definition buttonLabel (st : DemoState) : string :=
  if isSubmitting st then "Running Test..." else "Submit Tech Demo".

Definition isInput (ev : Event) : bool :=
  match ev with Input _ _ => true | _ => false end.


End ProfessionalContactDemo.

(** ** An instance of the formats

    zod's email pattern as a matcher: no leading dot and no two dots in
    a row; a local part of characters from [A-Za-z0-9_'+-.] that ends in
    one of [A-Za-z0-9_+-]; an at sign; one or more dot-terminated labels,
    each an alphanumeric followed by alphanumerics and hyphens; two or
    more letters.  And the first stage of URL parsing: without a scheme
    (a letter, then letters, digits, plus, hyphen or dot, then a colon) a string is no absolute URL.  What
    URL parsing rejects after the scheme is not decided by this instance;
    it serves to run the model on concrete inputs. *)

Module Patterns.

Definition isAlpha (c : N) : bool :=
  ((65 <=? c) && (c <=? 90) || (97 <=? c) && (c <=? 122))%N.
Definition isDigit (c : N) : bool := ((48 <=? c) && (c <=? 57))%N.
Definition isAlnum (c : N) : bool := isAlpha c || isDigit c.

(** [[A-Za-z0-9_'+\-\.]] *)
Definition localChar (c : N) : bool :=
  (isAlnum c || (c =? 95) || (c =? 39) || (c =? 43) || (c =? 45)
   || (c =? 46))%N.
(** [[A-Za-z0-9_+-]] *)
Definition localLast (c : N) : bool :=
  (isAlnum c || (c =? 95) || (c =? 43) || (c =? 45))%N.
(** [[A-Za-z0-9\-]] *)
Definition labelChar (c : N) : bool := (isAlnum c || (c =? 45))%N.

(** The pieces of [s] between the occurrences of [sep]. *)
Fixpoint split (sep : N) (s : jsstring) : list jsstring :=
  match s with
  | [] => [[]]
  | c :: s' =>
      if (c =? sep)%N then [] :: split sep s'
      else match split sep s' with
           | p :: ps => (c :: p) :: ps
           | [] => [[c]]
           end
  end.

Fixpoint hasDotDot (s : jsstring) : bool :=
  match s with
  | a :: (b :: _) as s' => ((a =? 46) && (b =? 46))%N || hasDotDot s'
  | _ => false
  end.

Definition startsWithDot (s : jsstring) : bool :=
  match s with
  | c :: _ => (c =? 46)%N
  | [] => false
  end.

(** The local part: any number of [localChar], then one [localLast]. *)
Definition localPart (s : jsstring) : bool :=
  forallb localChar s
  && match rev s with
     | c :: _ => localLast c
     | [] => false
     end.

(** A label: one alphanumeric, then any number of [labelChar]. *)
Definition label (s : jsstring) : bool :=
  match s with
  | c :: s' => isAlnum c && forallb labelChar s'
  | [] => false
  end.

(** [[A-Za-z]{2,}] *)
Definition topLevel (s : jsstring) : bool :=
  (2 <=? List.length s) && forallb isAlpha s.

(** One or more labels, each followed by a dot, then the top level. *)
Definition domain (s : jsstring) : bool :=
  match rev (split 46 s) with
  | tld :: (_ :: _) as labels => topLevel tld && forallb label labels
  | _ => false
  end.

Definition emailPattern (s : jsstring) : bool :=
  negb (startsWithDot s) && negb (hasDotDot s)
  && match split 64 s with
     | [loc; dom] => localPart loc && domain dom
     | _ => false
     end.

(** A scheme at the start of [s]: a letter, then letters, digits, plus,
    hyphen or dot, then a colon. *)
Fixpoint schemeTail (s : jsstring) : bool :=
  match s with
  | [] => false
  | c :: s' =>
      if (c =? 58)%N then true
      else if (isAlnum c || (c =? 43) || (c =? 45) || (c =? 46))%N
           then schemeTail s'
           else false
  end.

Definition hasScheme (s : jsstring) : bool :=
  match s with
  | c :: s' => isAlpha c && schemeTail s'
  | [] => false
  end.

Definition absoluteUrl (s : jsstring) : option jsstring :=
  if hasScheme (trim s) then Some (trim s) else None.

Definition formats : Zod.Formats :=
  {| Zod.email_format := emailPattern; Zod.url_format := absoluteUrl |}.

End Patterns.

(** ** The scenarios of the specification and of the test suite *)

Module Scenario.
Import Form.

Definition A : Inputs :=
  {| firstName := []; lastName := []; company := undefined;
     website := undefined; email := []; message := [] |}.

Definition B : Inputs :=
  {| firstName := lit "John"; lastName := lit "Doe";
     company := Str (lit "Acme"); website := Str (lit "not-a-url");
     email := lit "j@x.com"; message := lit "0123456789" |}.

(** Jane Smith fills in the required inputs. *)
Definition janeTypes : list Event :=
  [Input FirstName (lit "Jane"); Input LastName (lit "Smith");
   Input Email (lit "jane@example.com");
   Input Message (lit "This message has more than ten characters.")].

(** What Jane's form then holds (scenario D: no company, no website). *)
Definition jane : Inputs :=
  {| firstName := lit "Jane"; lastName := lit "Smith";
     company := undefined; website := undefined;
     email := lit "jane@example.com";
     message := lit "This message has more than ten characters." |}.

(** Three spaces are typed into the Company input as well. *)
Definition janeBlankCompany : list Event :=
  janeTypes ++ [Input Company (lit "   ")].

(** A company is entered, a website is entered, the company is cleared
    again, and the form is submitted. *)
Definition staleWebsite (w : string) : list Event :=
  janeTypes
  ++ [Input Company (lit "Acme"); Input Website (lit w);
      Input Company []; Submit].

(** Jane fills in the demo's form and submits it. *)
Definition janeSubmitsDemo : list ProfessionalContactDemo.Event :=
  [ProfessionalContactDemo.Input FirstName (lit "Jane");
   ProfessionalContactDemo.Input LastName (lit "Smith");
   ProfessionalContactDemo.Input Email (lit "jane@example.com");
   ProfessionalContactDemo.Input Message (lit "more than ten chars");
   ProfessionalContactDemo.Submit].

Definition janeDemo : ProfessionalContactDemo.Inputs :=
  {| ProfessionalContactDemo.firstName := lit "Jane";
     ProfessionalContactDemo.lastName := lit "Smith";
     ProfessionalContactDemo.email := lit "jane@example.com";
     ProfessionalContactDemo.message := lit "more than ten chars" |}.

End Scenario.

(** ** Properties stated on the model *)

Module Claims.
Import Form.

(** What holds of every state the form can reach. *)
Definition consistent (st : FormState) : Prop :=
  rejection st = None
  /\ (if isSubmitting st then exists d, timers st = [d] else timers st = [])
  /\ onSubmitCalls st = List.length (alerts st) + List.length (timers st).



End Claims.

(** ** Invariants of the two forms *)

Module Invariants.

(** An optional value as [setValueAs] leaves it: absent, or a string
    with something other than white space in it. *)
Definition notBlank (v : value) : Prop :=
  match v with
  | undefined => True
  | Str s => blank s = false
  end.

(** A record that satisfies every rule of the Form schema. *)
Definition acceptable {F : Zod.Formats} (d : Form.Inputs) : Prop :=
  2 <= List.length (Form.firstName d)
  /\ 2 <= List.length (Form.lastName d)
  /\ Zod.email_format (Form.email d) = true
  /\ 10 <= List.length (Form.message d)
  /\ notBlank (Form.company d)
  /\ match Form.website d with
     | undefined => True
     | Str out => exists w, blank w = false /\ Zod.url_format w = Some out
     end.

(** What holds of every state the Form component can reach. *)
Definition formInvariant {F : Zod.Formats} (st : Form.FormState) : Prop :=
  notBlank (Form.company (Form.values st))
  /\ notBlank (Form.website (Form.values st))
  /\ Forall acceptable (Form.timers st)
  /\ Forall acceptable (Form.alerts st).

(** A record that satisfies every rule of the demo's schema. *)
Definition demoAcceptable {F : Zod.Formats}
  (d : ProfessionalContactDemo.Inputs) : Prop :=
  2 <= List.length (ProfessionalContactDemo.firstName d)
  /\ 2 <= List.length (ProfessionalContactDemo.lastName d)
  /\ Zod.email_format (ProfessionalContactDemo.email d) = true
  /\ 10 <= List.length (ProfessionalContactDemo.message d).

(** What holds of every state the demo can reach. *)
Definition demoInvariant {F : Zod.Formats}
  (st : ProfessionalContactDemo.DemoState) : Prop :=
  (if ProfessionalContactDemo.isSubmitting st
   then exists d, ProfessionalContactDemo.timers st = [d]
   else ProfessionalContactDemo.timers st = [])
  /\ (ProfessionalContactDemo.isSuccess st = true ->
      ProfessionalContactDemo.values st = ProfessionalContactDemo.cleared
      /\ ProfessionalContactDemo.errors st = []
      /\ ProfessionalContactDemo.isSubmitting st = false)
  /\ Forall demoAcceptable (ProfessionalContactDemo.timers st)
  /\ Forall demoAcceptable (ProfessionalContactDemo.tabled st).

End Invariants.

(** * Proofs *)

Import Form.

(** ** Strings *)

Lemma FieldName_eqb_spec a b : reflect (a = b) (FieldName_eqb a b).
Proof. destruct a, b; constructor; congruence. Qed.

Lemma trimStart_blank s : trimStart s = [] <-> blank s = true.
Proof.
  induction s as [|c s IH]; simpl.
  - tauto.
  - destruct (isWhiteSpace c); simpl.
    + exact IH.
    + split; discriminate.
Qed.

Lemma trimStart_head s c r : trimStart s = c :: r -> isWhiteSpace c = false.
Proof.
  induction s as [|a s IH]; simpl; [discriminate|].
  destruct (isWhiteSpace a) eqn:E; [exact IH|].
  intros H. injection H as -> _. exact E.
Qed.

Lemma blank_rev s : blank (rev s) = blank s.
Proof.
  unfold blank. induction s as [|c s IH]; simpl; [reflexivity|].
  rewrite forallb_app, IH. simpl. rewrite andb_true_r. apply andb_comm.
Qed.

(** [trim] leaves nothing exactly of the strings made of white space. *)
Lemma trim_empty_iff s : trim s = [] <-> blank s = true.
Proof.
  unfold trim, trimEnd. split.
  - intros H.
    assert (Hb : blank (trimStart s) = true).
    { rewrite <- blank_rev. apply trimStart_blank.
      apply (f_equal (@rev N)) in H. rewrite rev_involutive in H. exact H. }
    destruct (trimStart s) as [|c r] eqn:E.
    + apply trimStart_blank. exact E.
    + apply trimStart_head in E. simpl in Hb. rewrite E in Hb. discriminate.
  - intros H. apply trimStart_blank in H. rewrite H. reflexivity.
Qed.

Lemma setValueAs_truthy c : truthy (setValueAs c) = negb (isEmpty (trim c)).
Proof.
  unfold setValueAs. destruct (isEmpty (trim c)) eqn:E; simpl; [reflexivity|].
  destruct c; [discriminate E | reflexivity].
Qed.

Lemma setValueAs_blank c : blank c = true -> setValueAs c = undefined.
Proof.
  intros H. apply trim_empty_iff in H. unfold setValueAs. now rewrite H.
Qed.

(** ** The schema *)

Section SchemaFacts.
Context {F : Zod.Formats}.

Ltac split_rules v :=
  destruct (firstName_rule (firstName v)), (lastName_rule (lastName v)),
    (company_rule (company v)), (website_rule (website v)),
    (email_rule (email v)), (message_rule (message v)).

Lemma schema_errors v :
  errorsOf (schema v)
  = Zod.at_path FirstName (firstName_rule (firstName v))
    ++ Zod.at_path LastName (lastName_rule (lastName v))
    ++ Zod.at_path Company (company_rule (company v))
    ++ Zod.at_path Website (website_rule (website v))
    ++ Zod.at_path Email (email_rule (email v))
    ++ Zod.at_path Message (message_rule (message v)).
Proof. unfold schema. split_rules v; reflexivity. Qed.

Lemma schema_invalid v e : schema v = Invalid e -> e <> [].
Proof. unfold schema. split_rules v; intros H; inversion H; discriminate. Qed.

Lemma schema_lookup v f : lookup f (errorsOf (schema v)) = fieldIssue f v.
Proof.
  rewrite schema_errors. unfold fieldIssue.
  destruct f; split_rules v; reflexivity.
Qed.

Lemma schema_count v f : count f (errorsOf (schema v)) <= 1.
Proof.
  rewrite schema_errors. unfold count.
  destruct f; split_rules v; simpl; lia.
Qed.

Lemma lookup_In f e : In f (map fst e) <-> lookup f e <> None.
Proof.
  induction e as [|[g m] e IH]; simpl.
  - split; [tauto | congruence].
  - destruct (FieldName_eqb_spec f g) as [->|Hne].
    + split; [discriminate | auto].
    + rewrite <- IH. split; [intros [H|H]; [congruence | exact H] | auto].
Qed.

Lemma schema_valid_iff v :
  isValid (schema v) = true <-> forall f, fieldIssue f v = None.
Proof.
  split.
  - intros H f. rewrite <- schema_lookup.
    destruct (schema v); [reflexivity | discriminate].
  - intros H. destruct (schema v) as [d|e] eqn:E; [reflexivity|].
    exfalso. apply (schema_invalid _ _ E).
    destruct e as [|[g m] e]; [reflexivity|].
    specialize (H g). rewrite <- schema_lookup, E in H. simpl in H.
    destruct (FieldName_eqb_spec g g); congruence.
Qed.

Lemma website_issue v :
  fieldIssue Website v
  = match website v with
    | undefined => None
    | Str w => match Zod.url_format w with
               | Some _ => None
               | None => Some "Invalid URL"%string
               end
    end.
Proof.
  unfold fieldIssue, website_rule, Zod.optional, Zod.url.
  destruct (website v) as [|w]; [reflexivity|].
  destruct (Zod.url_format w); reflexivity.
Qed.

Lemma schema_data v d :
  schema v = Valid d ->
  firstName d = firstName v /\ lastName d = lastName v
  /\ company d = company v /\ email d = email v /\ message d = message v
  /\ match website v with
     | undefined => website d = undefined
     | Str w => exists out, Zod.url_format w = Some out /\ website d = Str out
     end.
Proof.
  unfold schema, firstName_rule, lastName_rule, company_rule, website_rule,
    email_rule, message_rule, Zod.string_min, Zod.email, Zod.optional,
    Zod.url, Zod.string_.
  destruct (List.length (firstName v) <? 2), (List.length (lastName v) <? 2),
    (Zod.email_format (email v)), (List.length (message v) <? 10),
    (company v) as [|c], (website v) as [|w];
    try destruct (Zod.url_format w) as [out|];
    intros H; inversion H; subst; simpl; repeat split; eauto.
Qed.

End SchemaFacts.

(** ** The rendered form *)

Section LifecycleFacts.
Context {F : Zod.Formats}.
Import Claims.

Lemma run_snoc st evs ev : run st (evs ++ [ev]) = step (run st evs) ev.
Proof. unfold run. rewrite fold_left_app. reflexivity. Qed.

Lemma companyTyped_snoc evs ev :
  companyTyped (evs ++ [ev])
  = match ev with
    | Input Company s => s
    | _ => companyTyped evs
    end.
Proof. unfold companyTyped. rewrite fold_left_app. reflexivity. Qed.

Lemma handleSubmit_values st : values (handleSubmit st) = values st.
Proof. unfold handleSubmit. destruct (schema (values st)); reflexivity. Qed.

Lemma timeout_values st : values (timeout st) = values st.
Proof. unfold timeout. destruct (timers st); reflexivity. Qed.

(** Only an input event changes the held values. *)
Lemma step_values st ev :
  values (step st ev)
  = match ev with
    | Input f s => if editable st f then onChange f s (values st)
                   else values st
    | _ => values st
    end.
Proof.
  destruct ev as [f s| |]; simpl.
  - unfold input. destruct (editable st f); reflexivity.
  - destruct (isSubmitting st); [reflexivity | apply handleSubmit_values].
  - apply timeout_values.
Qed.

Lemma step_company st ev :
  company (values (step st ev))
  = match ev with
    | Input Company s => setValueAs s
    | _ => company (values st)
    end.
Proof.
  rewrite step_values. destruct ev as [f s| |]; try reflexivity.
  destruct f; simpl; try reflexivity.
  destruct (websiteRendered st); reflexivity.
Qed.

(** The held company value is the converted content of the input. *)
Lemma run_company evs :
  company (values (run mounted evs)) = setValueAs (companyTyped evs).
Proof.
  induction evs as [|ev evs IH] using rev_ind.
  - reflexivity.
  - rewrite run_snoc, companyTyped_snoc, step_company.
    destruct ev as [f s| |]; try exact IH.
    destruct f; try exact IH. reflexivity.
Qed.

Lemma active_website st :
  In Website (activeFields st) <-> websiteRendered st = true.
Proof.
  unfold activeFields. destruct (websiteRendered st); simpl.
  - intuition.
  - intuition congruence.
Qed.

Lemma consistent_mounted : consistent mounted.
Proof. repeat split. Qed.

Lemma consistent_step st ev : consistent st -> consistent (step st ev).
Proof.
  intros Hc. destruct ev as [f s| |]; simpl.
  - unfold input. destruct (editable st f); exact Hc.
  - destruct (isSubmitting st) eqn:Es; [exact Hc|].
    destruct Hc as (Hr & Ht & Hn). rewrite Es in Ht.
    unfold handleSubmit, consistent.
    destruct (schema (values st)) as [d|e]; simpl; rewrite Ht; simpl.
    + repeat split; [assumption | now exists d |].
      rewrite Hn, Ht. simpl. lia.
    + repeat split; [assumption |]. now rewrite Hn, Ht.
  - unfold timeout. destruct (timers st) as [|d rest] eqn:Et; [exact Hc|].
    destruct Hc as (Hr & Ht & Hn). rewrite Et in Ht, Hn.
    destruct (isSubmitting st); [|discriminate Ht].
    destruct Ht as [d' Hd]. injection Hd as -> ->.
    unfold consistent; simpl. repeat split; [assumption |].
    rewrite Hn, length_app. simpl. lia.
Qed.

Lemma consistent_run evs : consistent (run mounted evs).
Proof.
  induction evs as [|ev evs IH] using rev_ind.
  - exact consistent_mounted.
  - rewrite run_snoc. now apply consistent_step.
Qed.

Lemma status_Submitting st :
  status st = Submitting <-> isSubmitting st = true.
Proof.
  unfold status. destruct (isSubmitting st); [tauto|].
  destruct (rejection st); [split; discriminate|].
  destruct (isSubmitSuccessful st); split; discriminate.
Qed.

End LifecycleFacts.

(** * The claims *)

Import Claims.

(** ** Field visibility *)

(** C1: after any run of events the Website input is among the active
    fields exactly when the content of the Company input, trimmed, is not
    empty; a Company input holding white space only leaves Website
    inactive.  The four required fields are always active. *)
Theorem C1_website_active_iff_company {F : Zod.Formats} (evs : list Event) :
  (In Website (activeFields (run mounted evs))
   <-> trim (companyTyped evs) <> [])
  /\ (blank (companyTyped evs) = true ->
      ~ In Website (activeFields (run mounted evs)))
  /\ (forall f, In f [FirstName; LastName; Email; Message] ->
      In f (activeFields (run mounted evs))).
Proof.
  assert (Hiff : In Website (activeFields (run mounted evs))
                 <-> trim (companyTyped evs) <> []).
  { rewrite active_website. unfold websiteRendered, companyValue.
    rewrite run_company, setValueAs_truthy.
    destruct (trim (companyTyped evs)); simpl; split; congruence. }
  split; [exact Hiff | split].
  - intros Hb Hin. apply Hiff in Hin. apply Hin.
    apply trim_empty_iff. exact Hb.
  - intros f Hf. unfold activeFields.
    destruct (websiteRendered (run mounted evs)); simpl in *; intuition.
Qed.

Lemma C1_witness :
  ~ In Website
      (activeFields
         (run (F := Patterns.formats) mounted [Input Company (lit "   ")])).
Proof.
  apply (proj1 (proj2 (C1_website_active_iff_company
                         (F := Patterns.formats)
                         [Input Company (lit "   ")]))).
  reflexivity.
Defined.




(** ** Validation *)

(** C3: the errors the resolver returns hold an entry for a field exactly
    when that field's own rule fails, for every field at once (so for
    every active field that fails, and for no field that passes); the
    record is invalid exactly when some rule fails.  Submitting the form
    with all four required inputs empty is refused with the errors of
    firstName, lastName, email and message and none for website.  (That
    the empty string is no email address is the one fact used of the
    email format.) *)
Theorem C3_all_failing_fields_reported {F : Zod.Formats}
  (Hempty : Zod.email_format [] = false) :
  (forall v f, lookup f (errorsOf (schema v)) = fieldIssue f v)
  /\ (forall v f, In f (map fst (errorsOf (schema v)))
                  <-> fieldIssue f v <> None)
  /\ (forall v, isValid (schema v) = false
                <-> exists f, fieldIssue f v <> None)
  /\ schema Scenario.A
     = Invalid
         [(FirstName, "First name must be at least 2 characters.");
          (LastName, "Last name must be at least 2 characters.");
          (Email, "Please enter a valid email address.");
          (Message, "Message must be at least 10 characters.")]%string
  /\ map fst (errors (step mounted Submit))
     = [FirstName; LastName; Email; Message]
  /\ status (step mounted Submit) = Idle.
Proof.
  assert (HA : schema Scenario.A
     = Invalid
         [(FirstName, "First name must be at least 2 characters.");
          (LastName, "Last name must be at least 2 characters.");
          (Email, "Please enter a valid email address.");
          (Message, "Message must be at least 10 characters.")]%string).
  { unfold schema, email_rule, Zod.email. simpl. rewrite Hempty.
    reflexivity. }
  split; [exact schema_lookup | split; [|split; [|split; [exact HA|]]]].
  - intros v f. rewrite lookup_In, schema_lookup. tauto.
  - intros v. split.
    + intros Hv.
      destruct (fieldIssue FirstName v) eqn:E1;
        [exists FirstName; congruence|].
      destruct (fieldIssue LastName v) eqn:E2;
        [exists LastName; congruence|].
      destruct (fieldIssue Company v) eqn:E3;
        [exists Company; congruence|].
      destruct (fieldIssue Website v) eqn:E4;
        [exists Website; congruence|].
      destruct (fieldIssue Email v) eqn:E5; [exists Email; congruence|].
      destruct (fieldIssue Message v) eqn:E6;
        [exists Message; congruence|].
      assert (Hall : isValid (schema v) = true).
      { apply schema_valid_iff. intros []; assumption. }
      congruence.
    + intros [f Hf]. destruct (isValid (schema v)) eqn:Ev; [|reflexivity].
      exfalso. apply Hf. now apply schema_valid_iff.
  - assert (Hs : step mounted Submit = handleSubmit mounted) by reflexivity.
    rewrite Hs. unfold handleSubmit.
    change (values mounted) with Scenario.A. rewrite HA.
    split; reflexivity.
Qed.

Lemma C3_witness :
  Zod.email_format (Formats := Patterns.formats) [] = false
  /\ map fst (errors (step (F := Patterns.formats) mounted Submit))
     = [FirstName; LastName; Email; Message].
Proof.
  split; [reflexivity|].
  apply (C3_all_failing_fields_reported (F := Patterns.formats) eq_refl).
Defined.

(** C5: the record of scenario B is refused with exactly one error, the
    one of website; and for every record, no field has more than one
    entry among the errors.  (Used of the formats: "j@x.com" is an email
    address and "not-a-url" is no URL.) *)
Theorem C5_one_error_on_website {F : Zod.Formats}
  (Hemail : Zod.email_format (lit "j@x.com") = true)
  (Hurl : Zod.url_format (lit "not-a-url") = None) :
  schema Scenario.B = Invalid [(Website, "Invalid URL"%string)]
  /\ (forall v f, count f (errorsOf (schema v)) <= 1).
Proof.
  split; [|exact schema_count].
  unfold schema, email_rule, website_rule, Zod.email, Zod.optional, Zod.url.
  simpl. rewrite Hemail. unfold lit in Hurl |- *. simpl in Hurl |- *.
  rewrite Hurl. reflexivity.
Qed.

Lemma C5_witness :
  schema (F := Patterns.formats) Scenario.B
  = Invalid [(Website, "Invalid URL"%string)].
Proof.
  apply (C5_one_error_on_website (F := Patterns.formats) eq_refl eq_refl).
Defined.

(** ** Normalisation *)

(** C4: when the Company input holds white space only and the form is
    submitted with valid values, the record handed to the submit handler
    (and later shown by the alert) has no company: the value is
    [undefined], and the key is not printed.  The required inputs have no
    such conversion: what is typed is held as typed, and held empty it
    fails the length rule of firstName, lastName and message. *)
Theorem C4_blank_company_absent {F : Zod.Formats}
  (evs : list Event) (d : Inputs)
  (Hblank : blank (companyTyped evs) = true)
  (Hidle : isSubmitting (run mounted evs) = false)
  (Hvalid : schema (values (run mounted evs)) = Valid d) :
  let st := run mounted evs in
  (timers (step st Submit) = [d]
   /\ alerts (step (step st Submit) Timeout) = alerts st ++ [d]
   /\ company d = undefined
   /\ ~ In Company (jsonKeys d))
  /\ (forall st' s,
        firstName (values (step st' (Input FirstName s))) = s
        /\ lastName (values (step st' (Input LastName s))) = s
        /\ email (values (step st' (Input Email s))) = s
        /\ message (values (step st' (Input Message s))) = s)
  /\ (forall st',
        fieldIssue FirstName (values (step st' (Input FirstName [])))
        = Some "First name must be at least 2 characters."%string
        /\ fieldIssue LastName (values (step st' (Input LastName [])))
           = Some "Last name must be at least 2 characters."%string
        /\ fieldIssue Message (values (step st' (Input Message [])))
           = Some "Message must be at least 10 characters."%string).
Proof.
  intros st.
  assert (Hc : company d = undefined).
  { apply schema_data in Hvalid. destruct Hvalid as (_ & _ & Hc & _).
    rewrite Hc. unfold st. rewrite run_company.
    now apply setValueAs_blank. }
  destruct (consistent_run evs) as (_ & Ht & _). fold st in Ht.
  fold st in Hidle, Hvalid. rewrite Hidle in Ht.
  assert (Hs : step st Submit = handleSubmit st).
  { simpl. now rewrite Hidle. }
  split; [|split].
  - rewrite Hs. unfold handleSubmit. rewrite Hvalid. simpl.
    unfold timeout. simpl. rewrite Ht. simpl.
    repeat split; try assumption.
    unfold jsonKeys. rewrite Hc. destruct (website d); simpl;
      intuition discriminate.
  - intros st' s. repeat split; reflexivity.
  - intros st'. repeat split; reflexivity.
Qed.

Lemma C4_witness :
  timers (step (F := Patterns.formats)
            (run (F := Patterns.formats) mounted Scenario.janeBlankCompany)
            Submit)
  = [Scenario.jane]
  /\ company Scenario.jane = undefined.
Proof.
  destruct (C4_blank_company_absent (F := Patterns.formats)
              Scenario.janeBlankCompany Scenario.jane
              eq_refl eq_refl eq_refl) as ((Ht & _ & Hc & _) & _).
  exact (conj Ht Hc).
Defined.

(** C9: the name rules measure the string as typed.  A first name (or
    last name) of two or more code units, all of them white space, is
    held untrimmed, passes its rule and gets no error entry. *)
Theorem C9_names_not_trimmed {F : Zod.Formats} (st : FormState)
  (s : jsstring) (Hlen : 2 <= List.length s) (Hblank : blank s = true) :
  (let v := values (step st (Input FirstName s)) in
   firstName v = s
   /\ fieldIssue FirstName v = None
   /\ lookup FirstName (errorsOf (schema v)) = None)
  /\ (let v := values (step st (Input LastName s)) in
      lastName v = s
      /\ fieldIssue LastName v = None
      /\ lookup LastName (errorsOf (schema v)) = None).
Proof.
  assert (Hlt : (List.length s <? 2) = false) by (apply Nat.ltb_ge; exact Hlen).
  split; intros v; (split; [reflexivity|]).
  - assert (Hi : fieldIssue FirstName v = None).
    { unfold fieldIssue, firstName_rule, Zod.string_min. subst v. simpl.
      now rewrite Hlt. }
    split; [exact Hi | now rewrite schema_lookup].
  - assert (Hi : fieldIssue LastName v = None).
    { unfold fieldIssue, lastName_rule, Zod.string_min. subst v. simpl.
      now rewrite Hlt. }
    split; [exact Hi | now rewrite schema_lookup].
Qed.

Lemma C9_witness :
  lookup FirstName
    (errorsOf (schema (F := Patterns.formats)
                 (values (step (F := Patterns.formats) mounted
                            (Input FirstName (lit "  "))))))
  = None.
Proof.
  apply (C9_names_not_trimmed (F := Patterns.formats) mounted (lit "  ")).
  - simpl. lia.
  - reflexivity.
Defined.

(** ** The two schemas *)

(** C10: on a record that supplies firstName, lastName, email and message
    only, the schema of ProfessionalContactDemo and the schema of Form
    take the same decision, and where they refuse they name the same
    fields. *)
Theorem C10_schemas_agree {F : Zod.Formats}
  (r : ProfessionalContactDemo.Inputs) :
  ProfessionalContactDemo.isValid (ProfessionalContactDemo.schema r)
  = isValid (schema (ProfessionalContactDemo.asFormInputs r))
  /\ (forall e,
        ProfessionalContactDemo.schema r = ProfessionalContactDemo.Invalid e ->
        map fst e
        = map fst (errorsOf (schema (ProfessionalContactDemo.asFormInputs r)))).
Proof.
  unfold ProfessionalContactDemo.schema, schema,
    ProfessionalContactDemo.asFormInputs,
    ProfessionalContactDemo.firstName_rule,
    ProfessionalContactDemo.lastName_rule,
    ProfessionalContactDemo.email_rule,
    ProfessionalContactDemo.message_rule,
    firstName_rule, lastName_rule, email_rule, message_rule,
    company_rule, website_rule, Zod.string_min, Zod.email.
  simpl.
  destruct (List.length (ProfessionalContactDemo.firstName r) <? 2),
    (List.length (ProfessionalContactDemo.lastName r) <? 2),
    (Zod.email_format (ProfessionalContactDemo.email r)),
    (List.length (ProfessionalContactDemo.message r) <? 10);
    simpl; (split; [reflexivity | intros e He; inversion He; reflexivity]).
Qed.

Lemma C10_witness :
  let r := {| ProfessionalContactDemo.firstName := lit "J";
              ProfessionalContactDemo.lastName := lit "Doe";
              ProfessionalContactDemo.email := lit "j@x.com";
              ProfessionalContactDemo.message := lit "short" |} in
  map fst (errorsOf (schema (F := Patterns.formats)
                       (ProfessionalContactDemo.asFormInputs r)))
  = [FirstName; Message].
Proof.
  intros r. symmetry.
  apply (proj2 (C10_schemas_agree (F := Patterns.formats) r)
           [(FirstName, "Name required."%string);
            (Message, "Please provide more details."%string)]).
  reflexivity.
Defined.

(** ** The submit lifecycle *)

(** C6: in every state the form can reach, at most one call of the
    submit handler is pending; and while the form is submitting, pressing
    the (disabled) submit button changes nothing: the state, and with it
    the number of calls of the handler, stays as it is. *)
Theorem C6_no_second_submit {F : Zod.Formats} (evs : list Event) :
  let st := run mounted evs in
  List.length (timers st) <= 1
  /\ (status st = Submitting <-> List.length (timers st) = 1)
  /\ (status st = Submitting ->
      step st Submit = st
      /\ status (step st Submit) = Submitting
      /\ onSubmitCalls (step st Submit) = onSubmitCalls st
      /\ timers (step st Submit) = timers st).
Proof.
  intros st. destruct (consistent_run evs) as (_ & Ht & _). fold st in Ht.
  split; [|split].
  - destruct (isSubmitting st); [destruct Ht as [d ->] | rewrite Ht];
      simpl; lia.
  - rewrite status_Submitting.
    destruct (isSubmitting st); [destruct Ht as [d ->] | rewrite Ht];
      simpl; split; congruence.
  - intros Hs.
    assert (Hstep : step st Submit = st).
    { apply status_Submitting in Hs. simpl. now rewrite Hs. }
    rewrite Hstep. repeat split; try reflexivity. exact Hs.
Qed.

Lemma C6_witness :
  let st := run (F := Patterns.formats) mounted
              (Scenario.janeTypes ++ [Submit]) in
  status st = Submitting
  /\ step (F := Patterns.formats) st Submit = st.
Proof.
  intros st. split; [reflexivity|].
  apply (proj2 (proj2 (C6_no_second_submit (F := Patterns.formats)
                         (Scenario.janeTypes ++ [Submit])))).
  reflexivity.
Defined.

(** *** A handler given from outside *)

Section InjectedFacts.
Context {F : Zod.Formats}.
Variable action : Inputs -> list Inputs * Settlement.

Lemma runWith_snoc st evs ev :
  runWith action st (evs ++ [ev]) = stepWith action (runWith action st evs) ev.
Proof. unfold runWith. rewrite fold_left_app. reflexivity. Qed.






End InjectedFacts.

(** With its own handler the form is the instance [onSubmit_timeout]. *)
Lemma form_is_instance {F : Zod.Formats} (evs : list Event) :
  runWith onSubmit_timeout mounted evs = run mounted evs.
Proof.
  induction evs as [|ev evs IH] using rev_ind; [reflexivity|].
  rewrite runWith_snoc, run_snoc, IH.
  destruct (consistent_run evs) as (Hr & _).
  destruct ev as [f s| |]; try reflexivity.
  simpl. destruct (isSubmitting (run mounted evs)); [reflexivity|].
  f_equal. unfold forget. rewrite <- Hr.
  destruct (run mounted evs); reflexivity.
Qed.



(** X19: the form's own submit handler never rejects.  No state the form
    can reach is a failed one.  From a submitting state the one pending
    call ends when its timer fires: the submitted record is alerted once,
    the form has succeeded, nothing is pending, the handler has not been
    called again, the held values are intact, and the submit button works
    again. *)
Theorem form_submit_never_fails {F : Zod.Formats} (evs : list Event) :
  let st := run mounted evs in
  (forall r, status st <> Failed r)
  /\ (forall ev r, status (step st ev) <> Failed r)
  /\ (status st = Submitting ->
      exists d,
        timers st = [d]
        /\ status (step st Timeout) = Succeeded
        /\ alerts (step st Timeout) = alerts st ++ [d]
        /\ timers (step st Timeout) = []
        /\ onSubmitCalls (step st Timeout) = onSubmitCalls st
        /\ values (step st Timeout) = values st
        /\ step (step st Timeout) Submit = handleSubmit (step st Timeout)).
Proof.
  intros st.
  assert (Hnf : forall s, consistent s -> forall r, status s <> Failed r).
  { intros s (Hr & _ & _) r. unfold status. rewrite Hr.
    destruct (isSubmitting s); [discriminate|].
    destruct (isSubmitSuccessful s); discriminate. }
  pose proof (consistent_run evs) as Hc. fold st in Hc.
  split; [now apply Hnf | split].
  - intros ev. apply Hnf. now apply consistent_step.
  - intros Hs. apply status_Submitting in Hs.
    destruct Hc as (Hr & Ht & _). rewrite Hs in Ht. destruct Ht as [d Hd].
    exists d. split; [exact Hd|].
    simpl. unfold timeout. rewrite Hd. simpl. unfold status. simpl.
    rewrite Hr. repeat split; reflexivity.
Qed.

Lemma form_submit_never_fails_witness :
  let st := run (F := Patterns.formats) mounted
              (Scenario.janeTypes ++ [Submit]) in
  exists d, timers st = [d]
            /\ status (step (F := Patterns.formats) st Timeout) = Succeeded.
Proof.
  intros st.
  destruct (proj2 (proj2 (form_submit_never_fails (F := Patterns.formats)
                            (Scenario.janeTypes ++ [Submit]))) eq_refl)
    as (d & Hd & Hs & _).
  exists d. exact (conj Hd Hs).
Defined.

(** * Further properties of the Form component *)

Import Invariants.

Section FormFacts.
Context {F : Zod.Formats}.

Lemma setValueAs_cases s :
  (blank s = true /\ setValueAs s = undefined)
  \/ (blank s = false /\ setValueAs s = Str s).
Proof.
  unfold setValueAs. destruct (trim s) as [|c r] eqn:E; simpl.
  - left. split; [now apply trim_empty_iff | reflexivity].
  - right. split; [|reflexivity].
    destruct (blank s) eqn:B; [|reflexivity].
    apply trim_empty_iff in B. congruence.
Qed.

Lemma setValueAs_notBlank s : notBlank (setValueAs s).
Proof.
  destruct (setValueAs_cases s) as [[_ ->]|[B ->]]; simpl; auto.
Qed.

Lemma blank_app p q : blank (p ++ q) = blank p && blank q.
Proof. apply forallb_app. Qed.

Lemma schema_acceptable v d :
  notBlank (company v) -> notBlank (website v) ->
  schema v = Valid d -> acceptable d.
Proof.
  intros Hc Hw. unfold schema, firstName_rule, lastName_rule, company_rule,
    website_rule, email_rule, message_rule, Zod.string_min, Zod.email,
    Zod.optional, Zod.url, Zod.string_.
  destruct (List.length (firstName v) <? 2) eqn:E1;
    destruct (List.length (lastName v) <? 2) eqn:E2;
    destruct (Zod.email_format (email v)) eqn:E3;
    destruct (List.length (message v) <? 10) eqn:E4;
    destruct (company v) as [|c]; destruct (website v) as [|w];
    try destruct (Zod.url_format w) as [out|] eqn:E5;
    intros H; inversion H; subst; clear H;
    apply Nat.ltb_ge in E1, E2, E4;
    unfold acceptable; simpl; repeat split; auto.
  - exists w. auto.
  - exists w. auto.
Qed.

Lemma formInvariant_mounted : formInvariant mounted.
Proof. repeat split; simpl; auto. Qed.

Lemma formInvariant_step st ev :
  formInvariant st -> formInvariant (step st ev).
Proof.
  intros Hinv. destruct ev as [f s| |]; simpl.
  - unfold input. destruct (editable st f); [|exact Hinv].
    destruct Hinv as (Hc & Hw & Ht & Ha).
    destruct f; repeat split; simpl; auto using setValueAs_notBlank.
  - destruct (isSubmitting st); [exact Hinv|].
    destruct Hinv as (Hc & Hw & Ht & Ha). unfold handleSubmit.
    destruct (schema (values st)) as [d|e] eqn:E;
      repeat split; simpl; auto.
    apply Forall_app. split; [assumption|].
    constructor; [|constructor]. now apply (schema_acceptable (values st)).
  - unfold timeout. destruct (timers st) as [|d rest] eqn:E; [exact Hinv|].
    destruct Hinv as (Hc & Hw & Ht & Ha). rewrite E in Ht.
    inversion Ht; subst. repeat split; simpl; auto.
    apply Forall_app. split; [assumption|]. constructor; [assumption|].
    constructor.
Qed.

Lemma formInvariant_run evs : formInvariant (run mounted evs).
Proof.
  induction evs as [|ev evs IH] using rev_ind.
  - exact formInvariant_mounted.
  - rewrite run_snoc. now apply formInvariant_step.
Qed.

Lemma presses_snoc evs ev :
  presses (evs ++ [ev])
  = presses evs + match ev with Submit => 1 | _ => 0 end.
Proof.
  unfold presses. rewrite filter_app, length_app.
  destruct ev; reflexivity.
Qed.

Lemma timeouts_snoc evs ev :
  timeouts (evs ++ [ev])
  = timeouts evs + match ev with Timeout => 1 | _ => 0 end.
Proof.
  unfold timeouts. rewrite filter_app, length_app.
  destruct ev; reflexivity.
Qed.

End FormFacts.

(** X1: the two inputs registered with [setValueAs] never hold a blank
    string.  The converter gives [undefined] exactly for the strings made
    of white space (the empty one included) and any other string as it
    is, untrimmed; so in every state the form can reach, company and
    website are absent or hold something other than white space. *)
Theorem optional_values_never_blank {F : Zod.Formats} (evs : list Event) :
  (forall s, setValueAs s = undefined <-> blank s = true)
  /\ (forall s out, setValueAs s = Str out -> out = s /\ blank s = false)
  /\ notBlank (company (values (run mounted evs)))
  /\ notBlank (website (values (run mounted evs)))
  /\ company (values (run mounted evs)) <> Str []
  /\ website (values (run mounted evs)) <> Str [].
Proof.
  destruct (formInvariant_run evs) as (Hc & Hw & _).
  split; [|split; [|split; [exact Hc | split; [exact Hw | split]]]].
  - intros s. destruct (setValueAs_cases s) as [[B ->]|[B ->]];
      split; intros H; congruence.
  - intros s out. destruct (setValueAs_cases s) as [[B ->]|[B ->]];
      intros H; inversion H; subst; auto.
  - intros H. rewrite H in Hc. discriminate Hc.
  - intros H. rewrite H in Hw. discriminate Hw.
Qed.

Section ElementFacts.

Lemma blank_stripNewlines s : blank (Html.stripNewlines s) = blank s.
Proof.
  unfold blank, Html.stripNewlines.
  induction s as [|c s IH]; [reflexivity|]. simpl.
  destruct (Html.isLineBreak c) eqn:E; simpl; rewrite IH; [|reflexivity].
  unfold Html.isLineBreak in E. apply orb_true_iff in E.
  destruct E as [E|E]; apply N.eqb_eq in E; subst c; reflexivity.
Qed.

Lemma ascii_is_white c :
  Html.isAsciiWhitespace c = true -> isWhiteSpace c = true.
Proof.
  unfold Html.isAsciiWhitespace. rewrite !orb_true_iff.
  intros [[[[E|E]|E]|E]|E]; apply N.eqb_eq in E; subst c; reflexivity.
Qed.

Lemma blank_dropAscii s : blank (Html.dropAsciiWhitespace s) = blank s.
Proof.
  unfold blank. induction s as [|c s IH]; [reflexivity|]. simpl.
  destruct (Html.isAsciiWhitespace c) eqn:E; [|reflexivity].
  rewrite IH, (ascii_is_white c E). reflexivity.
Qed.

Lemma blank_stripAscii s : blank (Html.stripAsciiWhitespace s) = blank s.
Proof.
  unfold Html.stripAsciiWhitespace.
  now rewrite blank_rev, blank_dropAscii, blank_rev, blank_dropAscii.
Qed.

(** An element reports a blank value exactly for a blank content. *)
Lemma blank_elementValue f s : blank (elementValue f s) = blank s.
Proof.
  unfold elementValue, Html.reported.
  destruct (inputType f);
    rewrite ?blank_stripAscii, ?blank_stripNewlines; try reflexivity.
  unfold blank.
  assert (H : forall n t, List.length t <= n ->
                forallb isWhiteSpace (Html.normalizeNewlines t)
                = forallb isWhiteSpace t).
  { induction n as [|n IH]; intros t Hn.
    - destruct t; [reflexivity | simpl in Hn; lia].
    - destruct t as [|c t]; [reflexivity|]. simpl.
      destruct (c =? 13)%N eqn:E.
      + apply N.eqb_eq in E. subst c. destruct t as [|c' t]; [reflexivity|].
        destruct (c' =? 10)%N eqn:E'.
        * apply N.eqb_eq in E'. subst c'. simpl. apply IH. simpl in Hn. lia.
        * change (forallb isWhiteSpace (10%N :: Html.normalizeNewlines (c' :: t)))
            with (forallb isWhiteSpace (Html.normalizeNewlines (c' :: t))).
          rewrite IH by (simpl in *; lia). reflexivity.
      + simpl. rewrite IH by (simpl in Hn; lia). reflexivity. }
  apply (H (List.length s)). lia.
Qed.

Lemma dropAscii_head s c r :
  Html.dropAsciiWhitespace s = c :: r -> Html.isAsciiWhitespace c = false.
Proof.
  induction s as [|a s IH]; simpl; [discriminate|].
  destruct (Html.isAsciiWhitespace a) eqn:E; [exact IH|].
  intros H. injection H as -> _. exact E.
Qed.

Lemma dropAscii_snoc s c :
  Html.isAsciiWhitespace c = false ->
  Html.dropAsciiWhitespace (s ++ [c]) = Html.dropAsciiWhitespace s ++ [c].
Proof.
  intros Hc. induction s as [|a s IH]; simpl.
  - now rewrite Hc.
  - destruct (Html.isAsciiWhitespace a); [exact IH | reflexivity].
Qed.

Lemma dropAscii_In s c : In c (Html.dropAsciiWhitespace s) -> In c s.
Proof.
  induction s as [|a s IH]; simpl; [tauto|].
  destruct (Html.isAsciiWhitespace a); [auto|]. simpl. tauto.
Qed.

(** What a [type="url"] or [type="email"] element reports neither starts
    nor ends with ASCII whitespace and has no line break in it. *)
Lemma stripped_value s :
  let t := Html.stripAsciiWhitespace (Html.stripNewlines s) in
  (forall c r, t = c :: r -> Html.isAsciiWhitespace c = false)
  /\ (forall c r, rev t = c :: r -> Html.isAsciiWhitespace c = false)
  /\ (forall c, In c t -> Html.isLineBreak c = false).
Proof.
  intros t. unfold t, Html.stripAsciiWhitespace.
  set (u := Html.dropAsciiWhitespace (Html.stripNewlines s)).
  split; [|split].
  - intros c r H. destruct u as [|c0 u'] eqn:Eu; [discriminate H|].
    assert (Hc0 : Html.isAsciiWhitespace c0 = false)
      by (apply (dropAscii_head _ _ _ Eu)).
    simpl in H. rewrite dropAscii_snoc, rev_app_distr in H by exact Hc0.
    simpl in H. injection H as <- _. exact Hc0.
  - intros c r H. rewrite rev_involutive in H.
    now apply dropAscii_head in H.
  - intros c H. apply in_rev, dropAscii_In, in_rev in H.
    unfold u in H. apply dropAscii_In in H.
    unfold Html.stripNewlines in H. apply filter_In in H.
    destruct H as [_ H]. now apply negb_true_iff in H.
Qed.

End ElementFacts.

(** X2: what the form holds for the website is the converted value of
    its [type="url"] element.  Whatever the user sets the Website input
    to, the element reports it without line breaks and without ASCII
    whitespace at either end, and the form holds [setValueAs] of that.  A
    content of white space only counts as not provided: no website is
    held and the URL rule raises no issue.  For any other content the
    reported value is held as reported and is what the URL rule is asked
    about. *)
Theorem blank_website_not_validated {F : Zod.Formats}
  (st : FormState) (s : jsstring) (Hshown : websiteRendered st = true) :
  let v := values (typeInto Website s st) in
  website v = setValueAs (elementValue Website s)
  /\ (blank s = true -> website v = undefined /\ fieldIssue Website v = None)
  /\ (blank s = false ->
      website v = Str (elementValue Website s)
      /\ fieldIssue Website v
         = match Zod.url_format (elementValue Website s) with
           | Some _ => None
           | None => Some "Invalid URL"%string
           end)
  /\ (forall c r, elementValue Website s = c :: r ->
        Html.isAsciiWhitespace c = false)
  /\ (forall c r, rev (elementValue Website s) = c :: r ->
        Html.isAsciiWhitespace c = false)
  /\ (forall c, In c (elementValue Website s) -> Html.isLineBreak c = false).
Proof.
  intros v.
  assert (Hv : website v = setValueAs (elementValue Website s)).
  { unfold v, typeInto, input, editable. now rewrite Hshown. }
  split; [exact Hv | split; [|split; [|exact (stripped_value s)]]];
    intros B; rewrite website_issue, Hv;
    destruct (setValueAs_cases (elementValue Website s)) as [[B' ->]|[B' ->]];
    rewrite blank_elementValue in B'; try congruence; split; reflexivity.
Qed.

Lemma blank_website_not_validated_witness :
  let st := step (F := Patterns.formats) mounted
              (Input Company (lit "Acme")) in
  website (values (typeInto Website (lit " https://acme.io ") st))
  = Str (lit "https://acme.io").
Proof.
  intros st.
  destruct (blank_website_not_validated (F := Patterns.formats) st
              (lit " https://acme.io ") eq_refl) as (_ & _ & H & _).
  exact (proj1 (H eq_refl)).
Defined.

(** X3: edits compose as last-write-wins and, with one exception, in any
    order.  Setting an input twice leaves what setting it to the second
    string alone leaves; edits of two different inputs commute unless
    they are Company and Website (an edit of Company decides whether
    Website can be edited at all). *)
Theorem edits_overwrite_and_commute {F : Zod.Formats}
  (st : FormState) (f g : FieldName) (s t : jsstring) :
  step (step st (Input f s)) (Input f t) = step st (Input f t)
  /\ (f <> g ->
      ~ (f = Company /\ g = Website) -> ~ (f = Website /\ g = Company) ->
      step (step st (Input f s)) (Input g t)
      = step (step st (Input g t)) (Input f s)).
Proof.
  split.
  - simpl. unfold input, editable, websiteRendered, companyValue.
    destruct f; simpl; try reflexivity.
    destruct (truthy (company (values st))) eqn:E; simpl; rewrite E;
      reflexivity.
  - intros Hne H1 H2. simpl.
    unfold input, editable, websiteRendered, companyValue.
    destruct f, g; try congruence; try (exfalso; tauto); simpl;
      try reflexivity;
      destruct (truthy (company (values st))) eqn:E; simpl;
      try rewrite E; reflexivity.
Qed.

Lemma edits_overwrite_and_commute_witness :
  step (F := Patterns.formats)
    (step (F := Patterns.formats) mounted (Input FirstName (lit "Jane")))
    (Input Email (lit "jane@example.com"))
  = step (F := Patterns.formats)
      (step (F := Patterns.formats) mounted
         (Input Email (lit "jane@example.com")))
      (Input FirstName (lit "Jane")).
Proof.
  apply (proj2 (edits_overwrite_and_commute (F := Patterns.formats)
                  mounted FirstName Email (lit "Jane")
                  (lit "jane@example.com")));
    [discriminate | intros [H _]; discriminate H
     | intros [H _]; discriminate H].
Defined.

(** X4: the value held under a key changes only when the input of that
    very key is edited while it is on screen: pressing the button, a
    timer, or an edit elsewhere leave it as it is. *)
Theorem held_value_changes_only_by_own_input {F : Zod.Formats}
  (st : FormState) (ev : Event) (g : FieldName)
  (Hchanged : held g (values (step st ev)) <> held g (values st)) :
  exists s, ev = Input g s /\ editable st g = true.
Proof.
  rewrite step_values in Hchanged. destruct ev as [f s| |];
    try (exfalso; apply Hchanged; reflexivity).
  destruct (editable st f) eqn:E;
    [|exfalso; apply Hchanged; reflexivity].
  exists s. destruct f, g; try (split; [reflexivity | exact E]);
    exfalso; apply Hchanged; reflexivity.
Qed.

Lemma held_value_changes_only_by_own_input_witness :
  exists s, Input FirstName (lit "Jane") = Input FirstName s
            /\ editable mounted FirstName = true.
Proof.
  apply (held_value_changes_only_by_own_input (F := Patterns.formats)
           mounted (Input FirstName (lit "Jane")) FirstName).
  discriminate.
Defined.

(** X5: the submit handler only ever receives, and the alert only ever
    shows, records that satisfy every rule of the schema: names of two or
    more code units, an email address the format accepts, a message of
    ten or more, a company that is absent or not blank, and a website
    that is absent or the output of the URL check. *)
Theorem only_acceptable_records_submitted {F : Zod.Formats}
  (evs : list Event) :
  Forall acceptable (timers (run mounted evs))
  /\ Forall acceptable (alerts (run mounted evs)).
Proof.
  destruct (formInvariant_run evs) as (_ & _ & Ht & Ha). split; assumption.
Qed.

(** Company and Website are the exception: typed in this order the
    website is held, in the other order the Website input is not there
    yet. *)
Example company_website_do_not_commute :
  step (F := Patterns.formats)
    (step (F := Patterns.formats) mounted (Input Company (lit "Acme")))
    (Input Website (lit "https://acme.io"))
  <> step (F := Patterns.formats)
       (step (F := Patterns.formats) mounted
          (Input Website (lit "https://acme.io")))
       (Input Company (lit "Acme")).
Proof. discriminate. Qed.

(** X6: the submit handler is called at most once per press of the
    button, and every call is either still pending or has raised exactly
    one alert: after any run of events, calls = alerts + pending,
    calls <= presses and alerts <= timers fired. *)
Theorem alerts_calls_presses {F : Zod.Formats} (evs : list Event) :
  let st := run mounted evs in
  onSubmitCalls st = List.length (alerts st) + List.length (timers st)
  /\ onSubmitCalls st <= presses evs
  /\ List.length (alerts st) <= timeouts evs.
Proof.
  intros st. split; [apply (consistent_run evs)|]. subst st.
  induction evs as [|ev evs IH] using rev_ind; [simpl; lia|].
  rewrite run_snoc, presses_snoc, timeouts_snoc.
  destruct IH as [IH1 IH2]. destruct ev as [f s| |]; simpl.
  - unfold input. destruct (editable (run mounted evs) f); simpl; lia.
  - destruct (isSubmitting (run mounted evs)); [lia|].
    unfold handleSubmit.
    destruct (schema (values (run mounted evs))); simpl; lia.
  - unfold timeout. destruct (timers (run mounted evs)); simpl;
      rewrite ?length_app; simpl; lia.
Qed.

(** X7: the button never stays disabled.  In every state the form can
    reach it is disabled, and labelled "Sending...", exactly while one
    call of the submit handler is pending; a refused submit leaves it
    enabled; and when the timer fires it is enabled again and labelled
    "Submit". *)
Theorem button_follows_pending_call {F : Zod.Formats} (evs : list Event) :
  let st := run mounted evs in
  (disabled (button st) = true <-> exists d, timers st = [d])
  /\ (label (button st) = "Sending..."%string <-> exists d, timers st = [d])
  /\ ariaBusy st = disabled (button st)
  /\ (forall e, isSubmitting st = false -> schema (values st) = Invalid e ->
      disabled (button (step st Submit)) = false)
  /\ disabled (button (step st Timeout)) = false
  /\ label (button (step st Timeout)) = "Submit"%string.
Proof.
  intros st.
  assert (Hc : consistent st) by apply consistent_run.
  assert (Hoff : isSubmitting (step st Timeout) = false).
  { destruct Hc as (_ & Ht & _). simpl. unfold timeout.
    destruct (timers st) eqn:E; [|reflexivity].
    destruct (isSubmitting st); [|reflexivity].
    destruct Ht as [d Hd]. discriminate Hd. }
  destruct Hc as (_ & Ht & _).
  assert (Hiff : isSubmitting st = true <-> exists d, timers st = [d]).
  { destruct (isSubmitting st); split; auto; try discriminate.
    intros [d Hd]. rewrite Ht in Hd. discriminate Hd. }
  split; [exact Hiff | split; [|split; [reflexivity | split; [|split]]]].
  - rewrite <- Hiff. unfold button; simpl.
    destruct (isSubmitting st); split; congruence.
  - intros e Hs He. simpl. rewrite Hs. unfold handleSubmit. rewrite He.
    reflexivity.
  - exact Hoff.
  - change (label (button (step st Timeout)))
      with (if isSubmitting (step st Timeout)
            then "Sending..."%string else "Submit"%string).
    now rewrite Hoff.
Qed.

Lemma button_follows_pending_call_witness :
  disabled (button (step (F := Patterns.formats) mounted Submit)) = false.
Proof.
  apply (proj1 (proj2 (proj2 (proj2
           (button_follows_pending_call (F := Patterns.formats) []))))
           (errorsOf (schema (F := Patterns.formats) Scenario.A)));
    reflexivity.
Defined.

(** ** What is on screen *)

Section ViewFacts.
Context {F : Zod.Formats}.

Lemma errorId_inj f g : errorId f = errorId g -> f = g.
Proof. destruct f, g; intros H; try reflexivity; discriminate H. Qed.

Lemma render_In st x :
  In x (render st)
  <-> exists g, In x (renderField st g)
                /\ (g = Website -> websiteRendered st = true).
Proof.
  unfold render. rewrite !in_app_iff. split.
  - intros [H|[H|[H|[H|[H|H]]]]].
    + exists FirstName. split; [exact H | discriminate].
    + exists LastName. split; [exact H | discriminate].
    + exists Company. split; [exact H | discriminate].
    + destruct (websiteRendered st); [|destruct H].
      exists Website. split; [exact H | reflexivity].
    + exists Email. split; [exact H | discriminate].
    + exists Message. split; [exact H | discriminate].
  - intros (g & H & Hw). destruct g; auto 7.
    rewrite (Hw eq_refl). auto 7.
Qed.

Lemma renderField_alert st g a :
  In (AlertEl a) (renderField st g)
  <-> exists m, lookup g (errors st) = Some m
                /\ a = {| alertId := errorId g; alertText := m |}.
Proof.
  unfold renderField. destruct (lookup g (errors st)) as [m|]; simpl.
  - split.
    + intros [H|[H|[]]]; [discriminate H|]. inversion H. eauto.
    + intros (m' & Hm & ->). inversion Hm. auto.
  - split.
    + intros [H|[]]. discriminate H.
    + intros (m' & Hm & _). discriminate Hm.
Qed.

Lemma renderField_input st g i :
  In (InputEl i) (renderField st g)
  <-> i = match lookup g (errors st) with
          | Some _ =>
              {| inputId := fieldId g; borderClass := "border-red-500";
                 ariaInvalid := true;
                 ariaDescribedby := Some (errorId g) |}
          | None =>
              {| inputId := fieldId g; borderClass := "border-gray-100";
                 ariaInvalid := false; ariaDescribedby := None |}
          end.
Proof.
  unfold renderField. destruct (lookup g (errors st)) as [m|]; simpl.
  - split.
    + intros [H|[H|[]]]; [now inversion H | discriminate H].
    + intros ->. auto.
  - split.
    + intros [H|[]]. now inversion H.
    + intros ->. auto.
Qed.

Lemma aria_invalid_has_alert st i :
  In (InputEl i) (render st) ->
  ariaInvalid i = false \/ exists a, In (AlertEl a) (render st).
Proof.
  intros Hi. apply render_In in Hi.
  destruct Hi as (g & Hin & Hw). apply renderField_input in Hin.
  destruct (lookup g (errors st)) as [m|] eqn:E; subst i; simpl.
  - right. exists {| alertId := errorId g; alertText := m |}.
    apply render_In. exists g. split; [|exact Hw].
    apply renderField_alert. eauto.
  - now left.
Qed.

Lemma shownErrors_nil st :
  (forall a, ~ In (AlertEl a) (render st)) -> shownErrors st = [].
Proof.
  unfold shownErrors. induction (render st) as [|el l IH]; [reflexivity|].
  intros H. simpl. destruct el as [i|a].
  - simpl. apply IH. intros a Ha. apply (H a). now right.
  - exfalso. apply (H a). now left.
Qed.

Lemma issue_invalid v f m :
  fieldIssue f v = Some m -> exists e, schema v = Invalid e.
Proof.
  intros H. destruct (schema v) as [d|e] eqn:E; [|eauto].
  assert (Hv : isValid (schema v) = true) by now rewrite E.
  rewrite schema_valid_iff in Hv. rewrite Hv in H. discriminate H.
Qed.

End ViewFacts.

(** X8: an error message is on screen exactly when the form holds an
    error for the field and the field's input is on screen.  For the five
    inputs that are always rendered that is whenever an error is held;
    the website error is shown only while the Website input is. *)
Theorem error_shown_iff_held_and_rendered {F : Zod.Formats}
  (st : FormState) (f : FieldName) (m : string) :
  In (AlertEl {| alertId := errorId f; alertText := m |}) (render st)
  <-> lookup f (errors st) = Some m
      /\ (f = Website -> websiteRendered st = true).
Proof.
  rewrite render_In. split.
  - intros (g & Hin & Hw). apply renderField_alert in Hin.
    destruct Hin as (m' & Hm & Heq). inversion Heq as [[Hid Ht]].
    apply errorId_inj in Hid. subst g m'. auto.
  - intros [Hm Hw]. exists f. split; [|exact Hw].
    apply renderField_alert. eauto.
Qed.

Lemma error_shown_company {F : Zod.Formats} (st : FormState) (m : string) :
  In (AlertEl {| alertId := errorId Company; alertText := m |}) (render st) ->
  lookup Company (errors st) = Some m.
Proof.
  rewrite render_In. intros (g & Hin & _). apply renderField_alert in Hin.
  destruct Hin as (m' & Hm & Heq). inversion Heq as [[Hid Ht]].
  apply errorId_inj in Hid. subst g m'. exact Hm.
Qed.

(** X9: the accessibility attributes never dangle.  Every input on
    screen is [aria-invalid] exactly when it has the red border and
    exactly when it has an [aria-describedby], which then is the id of an
    error paragraph on screen; and every error paragraph on screen is the
    one an invalid input on screen points to. *)
Theorem aria_links_are_consistent {F : Zod.Formats} (st : FormState) :
  (forall i, In (InputEl i) (render st) ->
     (ariaInvalid i = true <-> borderClass i = "border-red-500"%string)
     /\ (ariaInvalid i = false <-> borderClass i = "border-gray-100"%string)
     /\ (ariaInvalid i = true <-> ariaDescribedby i <> None)
     /\ (forall id, ariaDescribedby i = Some id ->
           exists a, In (AlertEl a) (render st) /\ alertId a = id))
  /\ (forall a, In (AlertEl a) (render st) ->
        exists i, In (InputEl i) (render st)
                  /\ ariaDescribedby i = Some (alertId a)
                  /\ ariaInvalid i = true).
Proof.
  split.
  - intros i Hi. apply render_In in Hi. destruct Hi as (g & Hin & Hw).
    apply renderField_input in Hin.
    destruct (lookup g (errors st)) as [m|] eqn:E; subst i; simpl.
    + repeat split; try congruence.
      intros id Hid. inversion Hid; subst id.
      exists {| alertId := errorId g; alertText := m |}.
      split; [|reflexivity].
      apply render_In. exists g. split; [|exact Hw].
      apply renderField_alert. eauto.
    + repeat split; try congruence; try discriminate.
  - intros a Ha. apply render_In in Ha. destruct Ha as (g & Hin & Hw).
    apply renderField_alert in Hin. destruct Hin as (m & Hm & ->).
    exists {| inputId := fieldId g; borderClass := "border-red-500";
              ariaInvalid := true; ariaDescribedby := Some (errorId g) |}.
    split; [|split; reflexivity].
    apply render_In. exists g. split; [|exact Hw].
    apply renderField_input. now rewrite Hm.
Qed.

Lemma aria_links_are_consistent_witness :
  exists i,
    In (InputEl i) (render (step (F := Patterns.formats) mounted Submit))
    /\ ariaDescribedby i = Some "firstName-error"%string
    /\ ariaInvalid i = true.
Proof.
  apply (proj2 (aria_links_are_consistent (F := Patterns.formats)
                  (step (F := Patterns.formats) mounted Submit))
           {| alertId := "firstName-error";
              alertText := "First name must be at least 2 characters." |}).
  simpl. auto.
Defined.

(** ** The hidden website *)

(** X10: a malformed website held while the Website input is hidden makes
    a submit fail without a trace.  With every other field in order, the
    submit is refused with the website error alone; no error paragraph is
    on screen, no input is marked invalid, the handler is not called and
    the button stays enabled. *)
Theorem hidden_website_error_not_shown {F : Zod.Formats}
  (st : FormState) (w : jsstring)
  (Hhidden : websiteRendered st = false)
  (Hheld : website (values st) = Str w)
  (Hbad : Zod.url_format w = None)
  (Hidle : isSubmitting st = false)
  (Hrest : forall f, f <> Website -> fieldIssue f (values st) = None) :
  let st' := step st Submit in
  errors st' = [(Website, "Invalid URL"%string)]
  /\ shownErrors st' = []
  /\ (forall i, In (InputEl i) (render st') -> ariaInvalid i = false)
  /\ onSubmitCalls st' = onSubmitCalls st
  /\ disabled (button st') = false.
Proof.
  intros st'.
  assert (Herr : errorsOf (schema (values st))
                 = [(Website, "Invalid URL"%string)]).
  { rewrite schema_errors.
    pose proof (Hrest FirstName ltac:(discriminate)) as H1.
    pose proof (Hrest LastName ltac:(discriminate)) as H2.
    pose proof (Hrest Company ltac:(discriminate)) as H3.
    pose proof (Hrest Email ltac:(discriminate)) as H5.
    pose proof (Hrest Message ltac:(discriminate)) as H6.
    assert (H4 : fieldIssue Website (values st) = Some "Invalid URL"%string)
      by now rewrite website_issue, Hheld, Hbad.
    unfold fieldIssue in H1, H2, H3, H4, H5, H6.
    destruct (firstName_rule (firstName (values st))); [|discriminate H1].
    destruct (lastName_rule (lastName (values st))); [|discriminate H2].
    destruct (company_rule (company (values st))); [|discriminate H3].
    destruct (email_rule (email (values st))); [|discriminate H5].
    destruct (message_rule (message (values st))); [|discriminate H6].
    destruct (website_rule (website (values st))); [discriminate H4|].
    simpl in H4. inversion H4. reflexivity. }
  assert (Hst : st' = {| values := values st;
                         errors := [(Website, "Invalid URL"%string)];
                         isSubmitting := false; isSubmitSuccessful := false;
                         rejection := rejection st; timers := timers st;
                         alerts := alerts st;
                         onSubmitCalls := onSubmitCalls st |}).
  { unfold st'. simpl. rewrite Hidle. unfold handleSubmit.
    destruct (schema (values st)) as [d|e]; [discriminate Herr|].
    simpl in Herr. now rewrite Herr. }
  assert (Hw' : websiteRendered st' = false) by (rewrite Hst; exact Hhidden).
  assert (Hnone : forall a, ~ In (AlertEl a) (render st')).
  { intros a Ha. apply render_In in Ha. destruct Ha as (g & Hin & Hw).
    apply renderField_alert in Hin. destruct Hin as (m & Hm & _).
    rewrite Hst in Hm. simpl in Hm.
    destruct g; try discriminate Hm.
    rewrite (Hw eq_refl) in Hw'. discriminate Hw'. }
  split; [now rewrite Hst | split; [now apply shownErrors_nil | split]].
  - intros i Hi.
    destruct (aria_invalid_has_alert st' i Hi) as [Hf|Ha];
      [exact Hf | exfalso; destruct Ha as (a & Ha); exact (Hnone a Ha)].
  - rewrite Hst. split; reflexivity.
Qed.

Lemma hidden_website_error_not_shown_witness :
  let st := run (F := Patterns.formats) mounted
              (Scenario.janeTypes
               ++ [Input Company (lit "Acme");
                   Input Website (lit "not-a-url"); Input Company []]) in
  errors (step (F := Patterns.formats) st Submit)
  = [(Website, "Invalid URL"%string)]
  /\ shownErrors (step (F := Patterns.formats) st Submit) = [].
Proof.
  intros st.
  destruct (hidden_website_error_not_shown (F := Patterns.formats)
              st (lit "not-a-url") eq_refl eq_refl eq_refl eq_refl)
    as (He & Hs & _).
  - intros f Hf. destruct f; try reflexivity. now elim Hf.
  - exact (conj He Hs).
Defined.

(** X11: and it keeps failing.  While a malformed website is held behind
    a hidden Website input, no run of events that leaves the Company
    input alone gets a submit through: the Website input stays hidden,
    the value stays held, and the submit handler is never called. *)
Theorem hidden_website_blocks_every_submit {F : Zod.Formats}
  (evs : list Event) (st : FormState) (w : jsstring)
  (Hhidden : websiteRendered st = false)
  (Hheld : website (values st) = Str w)
  (Hbad : Zod.url_format w = None)
  (Hcompany : forall s, ~ In (Input Company s) evs) :
  onSubmitCalls (run st evs) = onSubmitCalls st
  /\ websiteRendered (run st evs) = false
  /\ website (values (run st evs)) = Str w.
Proof.
  revert st Hhidden Hheld Hcompany.
  induction evs as [|ev evs IH]; intros st Hhidden Hheld Hcompany;
    [auto|].
  assert (Hstep : onSubmitCalls (step st ev) = onSubmitCalls st
                  /\ websiteRendered (step st ev) = false
                  /\ website (values (step st ev)) = Str w).
  { destruct ev as [f s| |].
    - assert (Hf : f <> Company).
      { intros ->. apply (Hcompany s). now left. }
      simpl. unfold input, editable.
      unfold websiteRendered, companyValue in *.
      destruct f; try congruence; simpl; try rewrite Hhidden; auto.
    - simpl. destruct (isSubmitting st); [auto|].
      assert (Hi : fieldIssue Website (values st)
                   = Some "Invalid URL"%string)
        by now rewrite website_issue, Hheld, Hbad.
      destruct (issue_invalid _ _ _ Hi) as [e He].
      unfold handleSubmit. rewrite He. auto.
    - simpl. unfold timeout. destruct (timers st); auto. }
  destruct Hstep as (H1 & H2 & H3).
  change (run st (ev :: evs)) with (run (step st ev) evs).
  destruct (IH (step st ev) H2 H3) as (I1 & I2 & I3).
  - intros s Hin. apply (Hcompany s). now right.
  - rewrite I1, H1. auto.
Qed.

Lemma hidden_website_blocks_every_submit_witness :
  let st := run (F := Patterns.formats) mounted
              (Scenario.janeTypes
               ++ [Input Company (lit "Acme");
                   Input Website (lit "not-a-url"); Input Company []]) in
  onSubmitCalls
    (run (F := Patterns.formats) st
       [Submit; Input Message (lit "Could you call me back, please?");
        Submit; Timeout; Submit])
  = 0.
Proof.
  intros st.
  apply (hidden_website_blocks_every_submit (F := Patterns.formats)
           [Submit; Input Message (lit "Could you call me back, please?");
            Submit; Timeout; Submit]
           st (lit "not-a-url") eq_refl eq_refl eq_refl).
  intros s [H|[H|[H|[H|[H|[]]]]]]; discriminate H.
Defined.

(** ** After a submission *)

(** X12: the Form component keeps what was typed.  After an accepted
    submit has run to its alert the held values are those submitted from,
    and pressing the button again, with nothing edited, submits the same
    record a second time. *)
Theorem form_keeps_values_after_success {F : Zod.Formats}
  (st : FormState) (d : Inputs)
  (Hidle : isSubmitting st = false) (Hnone : timers st = [])
  (Hvalid : schema (values st) = Valid d) :
  let st2 := run st [Submit; Timeout] in
  values st2 = values st
  /\ status st2 <> Submitting
  /\ alerts st2 = alerts st ++ [d]
  /\ alerts (run st2 [Submit; Timeout]) = alerts st ++ [d; d].
Proof.
  simpl. rewrite Hidle. unfold handleSubmit. rewrite Hvalid. simpl.
  unfold timeout. simpl. rewrite Hnone. simpl.
  unfold handleSubmit. simpl. rewrite Hvalid. simpl.
  unfold timeout. simpl. rewrite <- app_assoc.
  repeat split; try reflexivity.
  unfold status. simpl. destruct (rejection st); discriminate.
Qed.

Lemma form_keeps_values_after_success_witness :
  alerts (run (F := Patterns.formats)
            (run (F := Patterns.formats) mounted Scenario.janeTypes)
            [Submit; Timeout; Submit; Timeout])
  = [Scenario.jane; Scenario.jane].
Proof.
  destruct (form_keeps_values_after_success (F := Patterns.formats)
              (run (F := Patterns.formats) mounted Scenario.janeTypes)
              Scenario.jane eq_refl eq_refl eq_refl) as (_ & _ & _ & H).
  vm_compute in H |- *. exact H.
Defined.

(** X13: validation hands the values on as they are.  A valid record
    comes out of the schema with every key but website unchanged (names,
    email and message untrimmed), website as the URL check outputs it,
    and [JSON.stringify] prints exactly the keys that hold a value. *)
Theorem valid_data_is_the_held_values {F : Zod.Formats}
  (v d : Inputs) (Hvalid : schema v = Valid d) :
  (forall f, f <> Website -> held f d = held f v)
  /\ match website v with
     | undefined => website d = undefined
     | Str w => exists out, Zod.url_format w = Some out /\ website d = Str out
     end
  /\ (forall f, In f (jsonKeys d) <-> held f v <> undefined).
Proof.
  apply schema_data in Hvalid.
  destruct Hvalid as (H1 & H2 & H3 & H4 & H5 & H6).
  split; [|split; [exact H6|]].
  - intros f Hf. destruct f; simpl; congruence.
  - intros f. unfold jsonKeys. rewrite H3.
    destruct f; simpl;
      destruct (company v) as [|c]; destruct (website v) as [|w];
      try (destruct H6 as (out & _ & H6)); rewrite H6; simpl;
      split; intros H;
      solve [ discriminate
            | exfalso; apply H; reflexivity
            | auto 10
            | repeat (destruct H as [H|H]; try discriminate H);
              contradiction ].
Qed.

Lemma valid_data_is_the_held_values_witness :
  In Company (jsonKeys Scenario.jane)
  <-> held Company Scenario.jane <> undefined.
Proof.
  destruct (valid_data_is_the_held_values (F := Patterns.formats)
              Scenario.jane Scenario.jane eq_refl) as (_ & _ & H).
  exact (H Company).
Defined.

(** * Properties of the ProfessionalContactDemo component *)

Section DemoFacts.
Import ProfessionalContactDemo.
Context {F : Zod.Formats}.

Lemma demo_run_snoc st evs ev : run st (evs ++ [ev]) = step (run st evs) ev.
Proof. unfold run. rewrite fold_left_app. reflexivity. Qed.

(** The demo's schema hands a valid record on unchanged. *)
Lemma demo_schema_valid v d :
  schema v = Valid d -> d = v /\ demoAcceptable d.
Proof.
  unfold schema, firstName_rule, lastName_rule, email_rule, message_rule,
    Zod.string_min, Zod.email, demoAcceptable.
  destruct (List.length (firstName v) <? 2) eqn:E1;
    destruct (List.length (lastName v) <? 2) eqn:E2;
    destruct (Zod.email_format (email v)) eqn:E3;
    destruct (List.length (message v) <? 10) eqn:E4;
    intros H; inversion H; subst; clear H.
  apply Nat.ltb_ge in E1, E2, E4. destruct v; simpl in *. auto.
Qed.

Lemma demoInvariant_mounted : demoInvariant mounted.
Proof. repeat split; simpl; auto; discriminate. Qed.

Lemma demoInvariant_step st ev :
  demoInvariant st -> demoInvariant (step st ev).
Proof.
  intros Hinv. destruct ev as [f s| | |]; simpl.
  - unfold input, formShown.
    destruct (isSuccess st) eqn:Es; simpl; [exact Hinv|].
    destruct (registered f); [|exact Hinv].
    destruct Hinv as (Hp & Hs & Ht & Hl).
    unfold demoInvariant; simpl. rewrite ?Es.
    repeat split; auto; discriminate.
  - unfold formShown. destruct (isSuccess st) eqn:Es; simpl; [exact Hinv|].
    destruct (isSubmitting st) eqn:Eb; simpl; [exact Hinv|].
    destruct Hinv as (Hp & Hs & Ht & Hl). rewrite Eb in Hp.
    unfold handleSubmit, demoInvariant.
    destruct (schema (values st)) as [d|e] eqn:E; simpl; rewrite ?Es, ?Hp;
      simpl.
    + repeat split; eauto; try discriminate.
      constructor; [|constructor]. now apply (demo_schema_valid (values st)).
    + repeat split; auto; discriminate.
  - unfold timeout. destruct (timers st) as [|d rest] eqn:E; [exact Hinv|].
    destruct Hinv as (Hp & Hs & Ht & Hl). rewrite E in Hp, Ht.
    destruct (isSubmitting st); [|discriminate Hp].
    destruct Hp as [d' Hd]. injection Hd as -> ->.
    inversion Ht; subst.
    unfold demoInvariant, afterTimer; simpl. repeat split; auto.
    apply Forall_app. split; [assumption|]. constructor; [assumption|].
    constructor.
  - unfold restart. destruct (isSuccess st) eqn:Es; [|exact Hinv].
    destruct Hinv as (Hp & Hs & Ht & Hl).
    unfold demoInvariant; simpl. repeat split; auto; discriminate.
Qed.

Lemma demoInvariant_run evs : demoInvariant (run mounted evs).
Proof.
  induction evs as [|ev evs IH] using rev_ind.
  - exact demoInvariant_mounted.
  - rewrite demo_run_snoc. now apply demoInvariant_step.
Qed.

Lemma success_panel_cleared evs :
  isSuccess (run mounted evs) = true ->
  values (run mounted evs) = cleared
  /\ errors (run mounted evs) = []
  /\ isSubmitting (run mounted evs) = false
  /\ timers (run mounted evs) = [].
Proof.
  intros Hup. destruct (demoInvariant_run evs) as (Hp & Hs & _).
  destruct (Hs Hup) as (Hv & He & Hb). rewrite Hb in Hp. auto.
Qed.

(** Edits leave the submission as it is. *)
Lemma demo_inputs_frame evs st :
  forallb isInput evs = true ->
  timers (run st evs) = timers st
  /\ tabled (run st evs) = tabled st
  /\ isSubmitting (run st evs) = isSubmitting st
  /\ isSuccess (run st evs) = isSuccess st.
Proof.
  revert st. induction evs as [|ev evs IH]; intros st H; [auto|].
  simpl in H. apply andb_true_iff in H. destruct H as [Hev Hevs].
  change (run st (ev :: evs)) with (run (step st ev) evs).
  destruct (IH (step st ev) Hevs) as (I1 & I2 & I3 & I4).
  rewrite I1, I2, I3, I4. destruct ev as [f s| | |]; try discriminate Hev.
  simpl. unfold input. destruct (formShown st && registered f); auto.
Qed.

End DemoFacts.

Section DemoProperties.
Import ProfessionalContactDemo.

(** X14: while the success panel is up the demo is inert.  In every
    state the demo can reach with the panel up, the form is not on
    screen, no errors are held, nothing is submitting or pending, and no
    event but "Restart Demo" has any effect: nothing can be typed or
    submitted, and no timer is left to fire. *)
Theorem success_panel_is_inert {F : Zod.Formats}
  (evs : list Event) (Hup : isSuccess (run mounted evs) = true) :
  let st := run mounted evs in
  formShown st = false
  /\ errors st = []
  /\ isSubmitting st = false
  /\ timers st = []
  /\ (forall ev, ev <> Restart -> step st ev = st).
Proof.
  intros st. destruct (demoInvariant_run evs) as (Hp & Hs & _).
  fold st in Hp, Hs, Hup. destruct (Hs Hup) as (Hv & He & Hb).
  rewrite Hb in Hp. unfold formShown. rewrite Hup. repeat split; auto.
  intros ev Hev. destruct ev as [f s| | |]; simpl.
  - unfold input, formShown. now rewrite Hup.
  - unfold formShown. now rewrite Hup.
  - unfold timeout. now rewrite Hp.
  - now elim Hev.
Qed.

(** X15: "Restart Demo" brings back the form as it was first rendered,
    but for the record of what was logged: empty inputs, no errors, an
    enabled button.  Nothing of the submitted values is left to submit
    again. *)
Theorem restart_gives_fresh_form {F : Zod.Formats}
  (evs : list Event) (Hup : isSuccess (run mounted evs) = true) :
  step (run mounted evs) Restart
  = {| values := cleared; errors := []; isSubmitting := false;
       isSuccess := false; timers := [];
       tabled := tabled (run mounted evs) |}.
Proof.
  destruct (success_panel_cleared evs Hup) as (Hv & He & Hb & Ht).
  simpl. unfold restart. rewrite Hup, Hv, He, Hb, Ht. reflexivity.
Qed.

(** X16: the demo logs valid records only, one submission at a time:
    every record given to [console.table] satisfies the four rules of
    the schema, at most one call of the handler is pending, and the
    button is disabled exactly while one is. *)
Theorem demo_tables_only_valid_records {F : Zod.Formats}
  (evs : list Event) :
  let st := run mounted evs in
  Forall demoAcceptable (tabled st)
  /\ Forall demoAcceptable (timers st)
  /\ List.length (timers st) <= 1
  /\ (isSubmitting st = true <-> exists d, timers st = [d])
  /\ (buttonLabel st = "Running Test..."%string
      <-> exists d, timers st = [d]).
Proof.
  intros st. destruct (demoInvariant_run evs) as (Hp & _ & Ht & Hl).
  fold st in Hp, Ht, Hl. unfold buttonLabel.
  destruct (isSubmitting st).
  - destruct Hp as [d Hd]. rewrite Hd in *. simpl.
    repeat split; eauto.
  - rewrite Hp in *. simpl.
    repeat split; auto; try discriminate; intros [d Hd]; discriminate Hd.
Qed.

(** X17: what is typed while a submission runs is thrown away.  From a
    submitting state, whatever is edited before the timer fires, the
    record logged is the one that was submitted, and the form comes out
    cleared with the success panel up. *)
Theorem edits_during_submission_are_discarded {F : Zod.Formats}
  (evs edits : list Event)
  (Hbusy : isSubmitting (run mounted evs) = true)
  (Hedits : forallb isInput edits = true) :
  let st := run mounted evs in
  let st' := step (run st edits) Timeout in
  exists d,
    timers st = [d]
    /\ tabled st' = tabled st ++ [d]
    /\ values st' = cleared
    /\ errors st' = []
    /\ isSuccess st' = true
    /\ isSubmitting st' = false.
Proof.
  intros st st'. destruct (demoInvariant_run evs) as (Hp & _).
  fold st in Hp, Hbusy. rewrite Hbusy in Hp. destruct Hp as [d Hd].
  exists d. split; [exact Hd|].
  destruct (demo_inputs_frame edits st Hedits) as (I1 & I2 & _).
  unfold st'. simpl. unfold timeout. rewrite I1, Hd. simpl.
  rewrite I2. repeat split; reflexivity.
Qed.

Lemma success_panel_is_inert_witness :
  let st := run (F := Patterns.formats) mounted
              (Scenario.janeSubmitsDemo ++ [Timeout]) in
  step (F := Patterns.formats) st (Input FirstName (lit "Janet")) = st.
Proof.
  intros st.
  destruct (success_panel_is_inert (F := Patterns.formats)
              (Scenario.janeSubmitsDemo ++ [Timeout]) eq_refl)
    as (_ & _ & _ & _ & H).
  apply H. discriminate.
Defined.

Lemma restart_gives_fresh_form_witness :
  step (F := Patterns.formats)
    (run (F := Patterns.formats) mounted
       (Scenario.janeSubmitsDemo ++ [Timeout]))
    Restart
  = {| values := cleared; errors := []; isSubmitting := false;
       isSuccess := false; timers := []; tabled := [Scenario.janeDemo] |}.
Proof.
  exact (restart_gives_fresh_form (F := Patterns.formats)
           (Scenario.janeSubmitsDemo ++ [Timeout]) eq_refl).
Defined.

Lemma edits_during_submission_are_discarded_witness :
  exists d,
    timers (run (F := Patterns.formats) mounted Scenario.janeSubmitsDemo)
    = [d]
    /\ tabled
         (step (F := Patterns.formats)
            (run (F := Patterns.formats)
               (run (F := Patterns.formats) mounted Scenario.janeSubmitsDemo)
               [Input FirstName (lit "Janet"); Input Message []])
            Timeout)
       = [d].
Proof.
  destruct (edits_during_submission_are_discarded (F := Patterns.formats)
              Scenario.janeSubmitsDemo
              [Input FirstName (lit "Janet"); Input Message []]
              eq_refl eq_refl) as (d & Hd & Ht & _).
  exists d. exact (conj Hd Ht).
Defined.

End DemoProperties.

(** * The Company input and the test suite *)

(** X18: the Company input is never in error.  Its rule accepts whatever
    the form can hold for it, so in every state the form can reach no
    company error is held, the input is not marked invalid and keeps its
    grey border, and its error paragraph is not on screen. *)
Theorem company_never_in_error {F : Zod.Formats} (evs : list Event) :
  let st := run mounted evs in
  lookup Company (errors st) = None
  /\ (forall m, ~ In (AlertEl {| alertId := errorId Company;
                                 alertText := m |}) (render st))
  /\ In (InputEl {| inputId := fieldId Company;
                    borderClass := "border-gray-100";
                    ariaInvalid := false; ariaDescribedby := None |})
        (render st).
Proof.
  intros st.
  assert (Hnone : lookup Company (errors st) = None).
  { subst st. induction evs as [|ev evs IH] using rev_ind; [reflexivity|].
    rewrite run_snoc. destruct ev as [f s| |]; simpl.
    - unfold input. destruct (editable (run mounted evs) f); exact IH.
    - destruct (isSubmitting (run mounted evs)); [exact IH|].
      unfold handleSubmit.
      destruct (schema (values (run mounted evs))) as [d|e] eqn:E;
        [reflexivity|].
      simpl. change e with (errorsOf (Invalid e)). rewrite <- E.
      rewrite schema_lookup. unfold fieldIssue, company_rule, Zod.optional.
      destruct (company (values (run mounted evs))); reflexivity.
    - unfold timeout. destruct (timers (run mounted evs)); exact IH. }
  split; [exact Hnone | split].
  - intros m Hin. apply error_shown_company in Hin. congruence.
  - apply render_In. exists Company. split; [|discriminate].
    apply renderField_input. now rewrite Hnone.
Qed.

(** The three tests of the test suite, run on the model. *)
Example test_validation_errors_and_red_border :
  let st := step (F := Patterns.formats) mounted Submit in
  In "First name must be at least 2 characters."%string (shownErrors st)
  /\ In "Please enter a valid email address."%string (shownErrors st)
  /\ In (InputEl {| inputId := "firstName"; borderClass := "border-red-500";
                    ariaInvalid := true;
                    ariaDescribedby := Some "firstName-error"%string |})
        (render st)
  /\ label (button st) = "Submit"%string.
Proof. vm_compute. auto 10. Qed.

Example test_website_shown_when_company_populated :
  let st1 := step (F := Patterns.formats) mounted
               (Input Company (lit "Tech Client Co.")) in
  let st2 := run (F := Patterns.formats) st1
               [Submit;
                Input FirstName (lit "John"); Input LastName (lit "Doe");
                Input Email (lit "test@example.com");
                Input Message (lit "This is a test message with 10 chars.");
                Submit; Timeout;
                Input Website (lit "not-a-url"); Submit] in
  ~ In Website (activeFields mounted)
  /\ In Website (activeFields st1)
  /\ In "Invalid URL"%string (shownErrors st2).
Proof.
  vm_compute. repeat split; auto.
  intros [H|[H|[H|[H|[H|[]]]]]]; discriminate H.
Qed.

Example test_sending_state_and_alert :
  let st1 := run (F := Patterns.formats) mounted
               (Scenario.janeTypes ++ [Submit]) in
  let st2 := step (F := Patterns.formats) st1 Timeout in
  label (button st1) = "Sending..."%string
  /\ disabled (button st1) = true
  /\ label (button st2) = "Submit"%string
  /\ alerts st2 = [Scenario.jane]
  /\ ~ In Company (jsonKeys Scenario.jane).
Proof.
  vm_compute. repeat split; auto.
  intros [H|[H|[H|[H|[]]]]]; discriminate H.
Qed.
